(** * Markdown Merger: a shallow embedding of the merge pipeline

    Embedding of [src/src/utils/helpers.py], [src/src/core/analyzer.py],
    [src/src/core/processor.py] and [src/src/core/merger.py].

    Python [str] values are modelled as [list ascii] (the code is only
    modelled on ASCII text); a path is a [string]; integers that can be
    negative are [Z], sizes and counts are [nat]; a modification time is its
    POSIX timestamp in [Z].  Regular expressions used by the code are
    embedded as the scanners they denote (leftmost, greedy, as Python's [re]
    runs them). *)

From Stdlib Require Import Ascii String.
From Stdlib Require Import List ZArith Lia Bool Arith Permutation.
Import ListNotations.
Open Scope list_scope.

Definition text := list ascii.

(** Text literal helper: [t "abc"] is the Python string ['abc']. *)
Definition t (s : string) : text := list_ascii_of_string s.

Definition nl : ascii := "010"%char.
Definition hash_c : ascii := "#"%char.
Definition dq : ascii := "034"%char.

(** Python [\s] on [str] restricted to ASCII: [str.isspace()], i.e. the
    codes 9..13 and 28..32. *)
Definition is_space (c : ascii) : bool :=
  let n := nat_of_ascii c in
  ((9 <=? n) && (n <=? 13)) || ((28 <=? n) && (n <=? 32)).

Definition is_nl (c : ascii) : bool := Ascii.eqb c nl.
Definition is_hash (c : ascii) : bool := Ascii.eqb c hash_c.

(** Longest prefix whose characters satisfy [p], and the rest. *)
Fixpoint span (p : ascii -> bool) (s : text) : text * text :=
  match s with
  | [] => ([], [])
  | c :: s' => if p c then let (a, b) := span p s' in (c :: a, b) else ([], s)
  end.

(** [str.split('\n')]. *)
Fixpoint split_nl (s : text) : list text :=
  match s with
  | [] => [[]]
  | c :: s' =>
      if is_nl c then [] :: split_nl s'
      else match split_nl s' with
           | l :: ls => (c :: l) :: ls
           | [] => [[c]]
           end
  end.

(** [str.join] with separator ['\n']. *)
Fixpoint join_nl (ls : list text) : text :=
  match ls with
  | [] => []
  | [l] => l
  | l :: ls' => l ++ nl :: join_nl ls'
  end.

(** ** [adjust_header_levels] (helpers.py, lines 86-107) *)

(** [max(1, min(6, current_level + offset))] *)
Definition new_level (current_level : nat) (offset : Z) : nat :=
  Z.to_nat (Z.max 1 (Z.min 6 (Z.of_nat current_level + offset))).

(** One attempt of the pattern [^(#{1,6})(\s+ .* )$] (spaces added) at a
    line start.
    [#{1,6}] can only be followed by [\s] when it takes the whole run of
    ['#'] and that run has length 1..6; [\s+] then takes every following
    whitespace character (newlines included), [.*] the rest of the line it
    stops on, and [$] holds there.  Result: length of group 1, group 2, and
    the text after the match. *)
Definition header_match (s : text) : option (nat * text * text) :=
  let (h, r) := span is_hash s in
  match r with
  | c :: _ =>
      if (1 <=? length h) && (length h <=? 6) && is_space c then
        let (ws, r2) := span is_space r in
        let (dots, r3) := span (fun c => negb (is_nl c)) r2 in
        Some (length h, ws ++ dots, r3)
      else None
  | [] => None
  end.

(** [re.sub(pattern, adjust_header, content, flags=re.MULTILINE)]:
    [bol] says whether the scan position is a line start (where [^]
    matches); [fuel] bounds the scan by the length of the text. *)
Fixpoint sub_headers (fuel : nat) (offset : Z) (bol : bool) (s : text) : text :=
  match fuel with
  | O => s
  | S fuel' =>
      match (if bol then header_match s else None) with
      | Some (k, g2, rest) =>
          repeat hash_c (new_level k offset) ++ g2 ++ sub_headers fuel' offset false rest
      | None =>
          match s with
          | [] => []
          | c :: s' => c :: sub_headers fuel' offset (is_nl c) s'
          end
      end
  end.

Definition adjust_header_levels (content : text) (offset : Z) : text :=
  if Z.eqb offset 0 then content
  else sub_headers (S (length content)) offset true content.

(** Number of leading ['#'] of a line: its header depth. *)
Definition leading_hashes (l : text) : nat := length (fst (span is_hash l)).

(** ** Python string primitives *)

Fixpoint text_eqb (a b : text) : bool :=
  match a, b with
  | [], [] => true
  | c :: a', d :: b' => Ascii.eqb c d && text_eqb a' b'
  | _, _ => false
  end.

(** [s.startswith(p)] *)
Fixpoint starts_with (p s : text) : bool :=
  match p, s with
  | [], _ => true
  | c :: p', d :: s' => Ascii.eqb c d && starts_with p' s'
  | _ :: _, [] => false
  end.

Fixpoint drop_while (p : ascii -> bool) (s : text) : text :=
  match s with
  | [] => []
  | c :: s' => if p c then drop_while p s' else s
  end.

(** [s.strip()]: whitespace removed at both ends. *)
Definition py_strip (s : text) : text :=
  rev (drop_while is_space (rev (drop_while is_space s))).

(** [s.lstrip('\n')] *)
Definition lstrip_nl (s : text) : text := drop_while is_nl s.

(** ** [extract_front_matter] (helpers.py, lines 58-83) *)

(** The loop [for i, line in enumerate(lines[1:], 1)]: index of the first
    line whose [strip()] is ['---']. *)
Fixpoint find_closing (ls : list text) (i : nat) : option nat :=
  match ls with
  | [] => None
  | l :: ls' => if text_eqb (py_strip l) (t "---") then Some i else find_closing ls' (S i)
  end.

Definition extract_front_matter (content : text) : option text * text :=
  if negb (starts_with (t "---") content) then (None, content)
  else
    let lines := split_nl content in
    match find_closing (tl lines) 1 with
    | None => (None, content)
    | Some end_index =>
        (Some (join_nl (firstn (end_index - 1) (skipn 1 lines))),
         lstrip_nl (join_nl (skipn (end_index + 1) lines)))
    end.

(** ** [normalize_whitespace] (helpers.py, lines 121-133) *)

(** A maximal run of [pending] newlines, rewritten by
    [re.sub(r'\n{k,}', '\n' * r, ...)]. *)
Definition flush_newlines (k r pending : nat) : text :=
  if k <=? pending then repeat nl r else repeat nl pending.

(** [re.sub] of the pattern [\n{k,}] by [r] newlines: the leftmost greedy
    match of [\n{k,}] is a whole run of at least [k] newlines, so runs are
    counted in [pending] and rewritten when they end. *)
Fixpoint collapse_newlines (k r pending : nat) (s : text) : text :=
  match s with
  | [] => flush_newlines k r pending
  | c :: s' =>
      if is_nl c then collapse_newlines k r (S pending) s'
      else flush_newlines k r pending ++ c :: collapse_newlines k r 0 s'
  end.

(** [max_consecutive] is taken as a non-negative count. *)
Definition normalize_whitespace (content : text) (max_consecutive : nat) : text :=
  py_strip (collapse_newlines (max_consecutive + 2) (max_consecutive + 1) 0 content) ++ [nl].

(** ** File analyzer (analyzer.py) *)

(** [str.lower()] on ASCII. *)
Definition lower_c (c : ascii) : ascii :=
  let n := nat_of_ascii c in
  if (65 <=? n) && (n <=? 90) then ascii_of_nat (n + 32) else c.
Definition lower (s : text) : text := map lower_c s.

Definition is_digit (c : ascii) : bool :=
  let n := nat_of_ascii c in (48 <=? n) && (n <=? 57).

(** Lexicographic order on code points (Python [str] comparison). *)
Fixpoint text_ltb (a b : text) : bool :=
  match a, b with
  | [], [] => false
  | [], _ :: _ => true
  | _ :: _, [] => false
  | c :: a', d :: b' =>
      if nat_of_ascii c <? nat_of_ascii d then true
      else if nat_of_ascii d <? nat_of_ascii c then false
      else text_ltb a' b'
  end.

(** A path is the list of its components; [str(path)] joins them with
    ['/'] and [path.name] is the last one. *)
Definition path := list string.

Fixpoint path_str (p : path) : text :=
  match p with
  | [] => []
  | [n] => t n
  | n :: p' => t n ++ "/"%char :: path_str p'
  end.

Definition path_name (p : path) : string := last p EmptyString.

(** [FileInfo] (analyzer.py, lines 21-36). *)
Record FileInfo := mkFileInfo {
  fi_path : path;
  fi_size : nat;
  fi_modified : Z;
  fi_hash : option string;
  fi_preview : text
}.

(** The file system: a file has a size, a modification time and its
    decoded content; a directory whose listing raises [PermissionError] is
    not [readable]. *)
#[local] Set Warnings "-register-all".
Inductive entry :=
| FileE (name : string) (size : nat) (mtime : Z) (content : text)
| DirE (name : string) (readable : bool) (children : list entry).

Definition entry_name (e : entry) : string :=
  match e with FileE n _ _ _ => n | DirE n _ _ => n end.

Fixpoint lookup_in (es : list entry) (p : path) : option entry :=
  match p with
  | [] => None
  | n :: p' =>
      match find (fun e => String.eqb (entry_name e) n) es with
      | None => None
      | Some e =>
          match p', e with
          | [], _ => Some e
          | _ :: _, DirE _ _ ch => lookup_in ch p'
          | _ :: _, FileE _ _ _ _ => None
          end
      end
  end.

(** [MergeConfig] fields used by the analyzer (config.py). *)
Record AnalyzerConfig := mkAnalyzerConfig {
  include_patterns : list string;
  exclude_patterns : list string;
  recursive : bool;
  max_depth : Z;
  sort_order : string;
  sort_ascending : bool;
  cfg_detect_duplicates : bool
}.

Definition default_analyzer_config : AnalyzerConfig :=
  mkAnalyzerConfig ["*.md"; "*.markdown"]%string [] true (-1) "alphabetical" true true.

(** [fnmatch]: the pattern is translated token by token as
    [fnmatch.translate] does: [*], [?], a bracket class [[...]] (with [!]
    negation and [a-b] ranges) when it is closed, any other character
    literally; the match is anchored at both ends. *)
Inductive glob_token :=
| GStar
| GAny
| GClass (negated : bool) (items : list (ascii * ascii))
| GLit (c : ascii).

(** Items of a bracket class body: single characters and ranges. *)
Fixpoint class_items (body : text) : list (ascii * ascii) :=
  match body with
  | a :: "-"%char :: b :: rest => (a, b) :: class_items rest
  | a :: rest => (a, a) :: class_items rest
  | [] => []
  end.

(** Split at the first [']'] after position 0 of a class body
    ([fnmatch] lets a leading [']'] be part of the class). *)
Definition class_close (s : text) : option (text * text) :=
  match s with
  | [] => None
  | c :: s' =>
      let (body, rest) := span (fun d => negb (Ascii.eqb d "]"%char)) s' in
      match rest with
      | [] => None
      | _ :: rest' => Some (c :: body, rest')
      end
  end.

Fixpoint glob_compile (fuel : nat) (pat : text) : list glob_token :=
  match fuel with
  | O => []
  | S fuel' =>
      match pat with
      | [] => []
      | "*"%char :: p' => GStar :: glob_compile fuel' p'
      | "?"%char :: p' => GAny :: glob_compile fuel' p'
      | "["%char :: p' =>
          let '(neg, p'') :=
            match p' with "!"%char :: q => (true, q) | _ => (false, p') end in
          match class_close p'' with
          | Some (body, rest) => GClass neg (class_items body) :: glob_compile fuel' rest
          | None => GLit "["%char :: glob_compile fuel' p'
          end
      | c :: p' => GLit c :: glob_compile fuel' p'
      end
  end.

Definition in_items (c : ascii) (items : list (ascii * ascii)) : bool :=
  existsb (fun '(a, b) => (nat_of_ascii a <=? nat_of_ascii c) && (nat_of_ascii c <=? nat_of_ascii b)) items.

Fixpoint glob_match (ts : list glob_token) (s : text) : bool :=
  match ts with
  | [] => match s with [] => true | _ => false end
  | GStar :: ts' =>
      (fix star (s : text) : bool :=
         glob_match ts' s || match s with [] => false | _ :: s' => star s' end) s
  | GAny :: ts' => match s with [] => false | _ :: s' => glob_match ts' s' end
  | GClass neg items :: ts' =>
      match s with
      | [] => false
      | c :: s' => Bool.eqb (in_items c items) (negb neg) && glob_match ts' s'
      end
  | GLit c :: ts' =>
      match s with
      | [] => false
      | d :: s' => Ascii.eqb c d && glob_match ts' s'
      end
  end.

Definition fnmatch (name pat : text) : bool :=
  glob_match (glob_compile (length pat) pat) name.

(** [matches_patterns] (helpers.py, lines 53-55). *)
Definition matches_patterns (filename : text) (patterns : list string) : bool :=
  existsb (fun p => fnmatch (lower filename) (lower (t p))) patterns.

(** [FileAnalyzer._matches_filters] *)
Definition matches_filters (cfg : AnalyzerConfig) (p : path) : bool :=
  let filename := t (path_name p) in
  if negb (matches_patterns filename (include_patterns cfg)) then false
  else match exclude_patterns cfg with
       | [] => true
       | ex => negb (matches_patterns filename ex)
       end.

(** [preview.rsplit('\n', 1)[0]] *)
Definition rsplit_nl_head (s : text) : text :=
  let r := rev s in
  let (_, before) := span (fun c => negb (is_nl c)) r in
  match before with
  | [] => s
  | _ :: b => rev b
  end.

(** [FileAnalyzer._analyze_file]: [f.read(500)], cut at the last newline
    when 500 characters were read. *)
Definition analyze_file (p : path) (size : nat) (mtime : Z) (content : text) : FileInfo :=
  let preview := firstn 500 content in
  let preview := if length preview =? 500 then rsplit_nl_head preview ++ t "..." else preview in
  mkFileInfo p size mtime None preview.

(** [FileAnalyzer._scan_directory]; [e] is the entry at [dir]. *)
Fixpoint scan_directory (cfg : AnalyzerConfig) (dir : path) (e : entry) (current_depth : nat)
  : list FileInfo :=
  if (0 <=? max_depth cfg)%Z && (Z.of_nat current_depth >? max_depth cfg)%Z then []
  else
    match e with
    | FileE _ _ _ _ => []
    | DirE _ readable children =>
        if negb readable then []
        else
          (fix scan_entries (es : list entry) : list FileInfo :=
             match es with
             | [] => []
             | FileE n sz mt c :: es' =>
                 let p := dir ++ [n] in
                 (if matches_filters cfg p then [analyze_file p sz mt c] else [])
                 ++ scan_entries es'
             | (DirE n _ _ as d) :: es' =>
                 (if recursive cfg then
                    if starts_with (t ".") (t n) then []
                    else scan_directory cfg (dir ++ [n]) d (S current_depth)
                  else [])
                 ++ scan_entries es'
             end) children
    end.

(** The loop body of [discover_files] for one input path. *)
Definition discover_path (cfg : AnalyzerConfig) (fs : list entry) (p : path) : list FileInfo :=
  match lookup_in fs p with
  | Some (FileE _ sz mt c) => if matches_filters cfg p then [analyze_file p sz mt c] else []
  | Some (DirE _ _ _ as d) => scan_directory cfg p d 0
  | None => []
  end.

(** [natural_sort_key]: [re.split(r'(\d+)', s)] alternates non-digit and
    digit runs, starting and ending with a (possibly empty) non-digit run. *)
Fixpoint digit_split (fuel : nat) (s : text) : list text :=
  match fuel with
  | O => [s]
  | S fuel' =>
      let (a, r) := span (fun c => negb (is_digit c)) s in
      match r with
      | [] => [a]
      | _ => let (d, r') := span is_digit r in a :: d :: digit_split fuel' r'
      end
  end.

Definition digits_value (d : text) : Z :=
  fold_left (fun acc c => (acc * 10 + Z.of_nat (nat_of_ascii c - 48))%Z) d 0%Z.

(** [text.isdigit()] *)
Definition is_digit_text (s : text) : bool :=
  match s with [] => false | _ => forallb is_digit s end.

Definition natural_sort_key (s : text) : list (Z + text) :=
  map (fun seg => if is_digit_text seg then inl (digits_value seg) else inr (lower seg))
      (digit_split (S (length s)) s).

(** Python list comparison of natural keys.  Positions alternate between
    [str] and [int] in every key, so elements of different kinds are never
    compared; the [inl]/[inr] case below is never reached. *)
Fixpoint key_ltb (a b : list (Z + text)) : bool :=
  match a, b with
  | [], [] => false
  | [], _ :: _ => true
  | _ :: _, [] => false
  | x :: a', y :: b' =>
      match x, y with
      | inl m, inl n => if (m <? n)%Z then true else if (n <? m)%Z then false else key_ltb a' b'
      | inr u, inr v => if text_ltb u v then true else if text_ltb v u then false else key_ltb a' b'
      | inl _, inr _ => true
      | inr _, inl _ => false
      end
  end.

(** [list.sort] is stable; [reverse=True] sorts as if each comparison were
    reversed and keeps stability. *)
Fixpoint insert_by {A} (lt : A -> A -> bool) (x : A) (l : list A) : list A :=
  match l with
  | [] => [x]
  | y :: l' => if lt x y then x :: l else y :: insert_by lt x l'
  end.

Definition stable_sort {A} (lt : A -> A -> bool) (l : list A) : list A :=
  fold_left (fun acc x => insert_by lt x acc) l [].

Definition sort_by_key {A K} (key : A -> K) (klt : K -> K -> bool) (reverse : bool) (l : list A) :=
  stable_sort (fun x y => if reverse then klt (key y) (key x) else klt (key x) (key y)) l.

(** [FileAnalyzer._sort_files]; "custom" (or any other value) keeps the
    order. *)
Definition sort_files (cfg : AnalyzerConfig) (files : list FileInfo) : list FileInfo :=
  let reverse := negb (sort_ascending cfg) in
  if String.eqb (sort_order cfg) "alphabetical" then
    sort_by_key (fun f => lower (path_str (fi_path f))) text_ltb reverse files
  else if String.eqb (sort_order cfg) "natural" then
    sort_by_key (fun f => natural_sort_key (path_str (fi_path f))) key_ltb reverse files
  else if String.eqb (sort_order cfg) "date" then
    sort_by_key fi_modified Z.ltb reverse files
  else if String.eqb (sort_order cfg) "size" then
    sort_by_key fi_size Nat.ltb reverse files
  else files.

(** [FileAnalyzer.discover_files] (analyzer.py, lines 45-71). *)
Definition discover_files (cfg : AnalyzerConfig) (fs : list entry) (paths : list path)
  : list FileInfo :=
  sort_files cfg (flat_map (discover_path cfg fs) paths).

(** ** Duplicate detection and statistics (analyzer.py, lines 157-211) *)

(** [calculate_file_hash] opens the file and hashes its bytes; [md5] is
    [hashlib]'s digest (a function of the content only).  [None]: [open]
    raised, and the exception leaves [detect_duplicates]. *)
Definition calculate_file_hash (md5 : text -> string) (fs : list entry) (p : path) : option string :=
  match lookup_in fs p with
  | Some (FileE _ _ _ content) => Some (md5 content)
  | _ => None
  end.

(** [hash_map[file_hash].append(file_info)] on an insertion-ordered dict. *)
Fixpoint bucket_add (h : string) (f : FileInfo) (m : list (string * list FileInfo))
  : list (string * list FileInfo) :=
  match m with
  | [] => [(h, [f])]
  | (h', fs) :: m' =>
      if String.eqb h h' then (h', fs ++ [f]) :: m' else (h', fs) :: bucket_add h f m'
  end.

Fixpoint hash_files (md5 : text -> string) (fs : list entry) (files : list FileInfo)
  (m : list (string * list FileInfo)) : option (list (string * list FileInfo)) :=
  match files with
  | [] => Some m
  | f :: rest =>
      match calculate_file_hash md5 fs (fi_path f) with
      | None => None
      | Some h =>
          (* [file_info.hash = file_hash] *)
          let f' := mkFileInfo (fi_path f) (fi_size f) (fi_modified f) (Some h) (fi_preview f) in
          hash_files md5 fs rest (bucket_add h f' m)
      end
  end.

(** [FileAnalyzer.detect_duplicates]; [None] when hashing raised. *)
Definition detect_duplicates (cfg : AnalyzerConfig) (md5 : text -> string) (fs : list entry)
  (files : list FileInfo) : option (list (string * list FileInfo)) :=
  if negb (cfg_detect_duplicates cfg) then Some []
  else
    match hash_files md5 fs files [] with
    | None => None
    | Some m => Some (filter (fun '(_, fs) => 1 <? length fs) m)
    end.

(** Python's [min]/[max] over a sequence; [None]: [ValueError] on an empty
    one. *)
Definition py_min (l : list Z) : option Z :=
  match l with [] => None | x :: l' => Some (fold_left Z.min l' x) end.
Definition py_max (l : list Z) : option Z :=
  match l with [] => None | x :: l' => Some (fold_left Z.max l' x) end.

(** The dict of [get_statistics], without the two [format_file_size]
    strings (float formatting). *)
Record Statistics := mkStatistics {
  st_count : nat;
  st_total_size : nat;
  st_avg_size : nat;
  st_oldest : option Z;
  st_newest : option Z
}.

(** [FileAnalyzer.get_statistics]; [None]: an exception escaped. *)
Definition get_statistics (files : list FileInfo) : option Statistics :=
  match files with
  | [] => Some (mkStatistics 0 0 0 None None)
  | _ =>
      let total_size := fold_right (fun f acc => fi_size f + acc) 0 files in
      let avg_size := total_size / length files in
      match py_min (map fi_modified files), py_max (map fi_modified files) with
      | Some oldest, Some newest =>
          Some (mkStatistics (length files) total_size avg_size (Some oldest) (Some newest))
      | _, _ => None
      end
  end.

(** ** Content processor and TOC (processor.py) *)

(** [ProcessedDocument] (processor.py, lines 24-36). *)
Record ProcessedDocument := mkDoc {
  source_path : path;
  original_content : text;
  processed_content : text;
  headers : list (nat * text);
  keywords : list text;
  front_matter : option text;
  file_size : nat;
  modified_time : Z;
  index : nat;
  total_count : nat
}.

(** The [MergeConfig] fields read by the processor, TOC and engine. *)
Record MergeConfig := mkMergeConfig {
  header_style : string;
  include_file_path : bool;
  include_doc_index : bool;
  separator_style : string;
  separator_blank_lines : nat;
  generate_toc : bool;
  toc_depth : Z;
  toc_style : string;
  toc_position : string;
  add_metadata : bool;
  add_semantic_markers : bool;
  add_chunk_hints : bool;
  create_backup : bool
}.

(** Defaults of [MergeConfig] (config.py). *)
Definition default_config : MergeConfig :=
  mkMergeConfig "## {name}" false true "---" 2 true 2 "links" "top" true true false true.

(** [PurePath.stem] *)
Definition path_stem (p : path) : text :=
  let name := t (path_name p) in
  let r := rev name in
  let (ext, before) := span (fun c => negb (Ascii.eqb c "."%char)) r in
  match before with
  | _ :: b => if (0 <? length b) && (0 <? length ext) then rev b else name
  | [] => name
  end.

(** [generate_anchor] (helpers.py, lines 154-159): lower-case, drop
    characters outside [[\w\s-]], then each whitespace run becomes ['-']. *)
Definition is_word (c : ascii) : bool :=
  let n := nat_of_ascii c in
  is_digit c || ((97 <=? n) && (n <=? 122)) || ((65 <=? n) && (n <=? 90)) || (n =? 95).

Fixpoint hyphenate (in_ws : bool) (s : text) : text :=
  match s with
  | [] => []
  | c :: s' =>
      if is_space c then (if in_ws then hyphenate true s' else "-"%char :: hyphenate true s')
      else c :: hyphenate false s'
  end.

Definition generate_anchor (txt : text) : text :=
  hyphenate false (filter (fun c => is_word c || is_space c || Ascii.eqb c "-"%char) (lower txt)).

Fixpoint show_nat_go (fuel n : nat) (acc : text) : text :=
  match fuel with
  | O => acc
  | S fuel' =>
      let acc' := ascii_of_nat (48 + n mod 10) :: acc in
      if n <? 10 then acc' else show_nat_go fuel' (n / 10) acc'
  end.

(** [str(n)] *)
Definition show_nat (n : nat) : text := show_nat_go (S n) n [].

(** [f"{n:04d}"] *)
Definition pad4 (n : nat) : text :=
  let s := show_nat n in repeat "0"%char (4 - length s) ++ s.

(** The lines [TOCGenerator.generate] adds for one document. *)
Definition toc_doc_lines (cfg : MergeConfig) (doc : ProcessedDocument) : list text :=
  let doc_name := path_stem (source_path doc) in
  let anchor := generate_anchor doc_name in
  let entry :=
    if String.eqb (toc_style cfg) "links" then
      t "- [" ++ doc_name ++ t "](#" ++ anchor ++ t ")"
    else if String.eqb (toc_style cfg) "numbered" then
      show_nat (index doc) ++ t ". [" ++ doc_name ++ t "](#" ++ anchor ++ t ")"
    else t "- " ++ doc_name in
  let sub :=
    if (toc_depth cfg >? 1)%Z then
      flat_map (fun '(level, header_text) =>
        if (Z.of_nat level <=? toc_depth cfg)%Z then
          let indent := concat (repeat (t "  ") (level - 1)) in
          let header_anchor := anchor ++ t "--" ++ generate_anchor header_text in
          if String.eqb (toc_style cfg) "links" then
            [indent ++ t "- [" ++ header_text ++ t "](#" ++ header_anchor ++ t ")"]
          else [indent ++ t "- " ++ header_text]
        else []) (headers doc)
    else [] in
  entry :: sub.

(** [TOCGenerator.generate] (processor.py, lines 178-213). *)
Definition toc_generate (cfg : MergeConfig) (documents : list ProcessedDocument) : text :=
  if negb (generate_toc cfg) then []
  else join_nl ([t "# Table of Contents"; []] ++ flat_map (toc_doc_lines cfg) documents
                ++ [[]; t "---"; []]).

(** Library calls of the renderers that are not embedded: [json.dumps] of
    the metadata dict (with [strftime]) and [str.format(name=...)]. *)
Record PyLib := mkPyLib {
  json_dumps_metadata : ProcessedDocument -> text;
  format_name : string -> text -> text
}.

(** [ContentProcessor.generate_metadata_comment] *)
Definition generate_metadata_comment (lib : PyLib) (cfg : MergeConfig) (doc : ProcessedDocument) : text :=
  if negb (add_metadata cfg) then []
  else t "<!-- DOC_META: " ++ json_dumps_metadata lib doc ++ t " -->".

(** [ContentProcessor.generate_semantic_markers] *)
Definition generate_semantic_markers (cfg : MergeConfig) (doc : ProcessedDocument) (position : string) : text :=
  if negb (add_semantic_markers cfg) then []
  else if String.eqb position "start" then
    t "<document id=" ++ [dq] ++ t "doc_" ++ pad4 (index doc) ++ [dq] ++ t " source="
      ++ [dq] ++ t (path_name (source_path doc)) ++ [dq] ++ t ">"
  else t "</document>".

(** [ContentProcessor.generate_chunk_hint] *)
Definition generate_chunk_hint (cfg : MergeConfig) (doc : ProcessedDocument) : text :=
  if negb (add_chunk_hints cfg) then [] else t "<!-- CHUNK_BOUNDARY: doc_" ++ pad4 (index doc) ++ t " -->".

(** [ContentProcessor.generate_separator] *)
Definition generate_separator (cfg : MergeConfig) : text :=
  let blank_lines := repeat nl (separator_blank_lines cfg) in
  blank_lines ++ t (separator_style cfg) ++ blank_lines.

(** [ContentProcessor.generate_document_header] *)
Definition generate_document_header (lib : PyLib) (cfg : MergeConfig) (doc : ProcessedDocument) : text :=
  let name := path_stem (source_path doc) in
  let header := format_name lib (header_style cfg) name in
  let header := if include_file_path cfg
                then header ++ nl :: t "*Source: `" ++ path_str (source_path doc) ++ t "`*"
                else header in
  if include_doc_index cfg
  then header ++ nl :: t "*Document " ++ show_nat (index doc) ++ t " of " ++ show_nat (total_count doc) ++ t "*"
  else header.

(** ** Merge engine (merger.py) *)

(** [MergeResult] without [duration_seconds] (wall-clock time). *)
Record MergeResult := mkResult {
  success : bool;
  output_path : option path;
  files_merged : nat;
  total_size : nat;
  errors : list text;
  warnings : list text
}.

(** What the surroundings of [MergeEngine.merge] do during one run:
    - [env_cancelled i]: the value of [self._cancelled] read by the check at
      the top of the iteration for the file of (1-based) index [i]; it is set
      by [cancel()] from another thread.  The pause loop that follows the
      check only waits ([time.sleep]) until [resume()] or [cancel()], and
      then always goes on with the same file, so it has no effect on the
      result and is not represented;
    - [env_callback i]: the exception raised by [progress_callback] when
      [update_progress] is called for index [i] ([None]: no callback, or it
      returned);
    - [env_process f i n]: [safe_read_file] followed by
      [ContentProcessor.process_document(f.path, content, i, n)], either the
      document or the text of the exception raised by them;
    - [env_output_exists], [env_backup_error]: [output_path.exists()] and the
      [IOError] raised by [shutil.copy2], if any;
    - [env_write out]: the exception raised by [_write_output] when it
      writes the text [out] (directory creation, [open], encoding, [write]),
      if any. *)
Record MergeEnv := mkEnv {
  env_cancelled : nat -> bool;
  env_callback : nat -> option text;
  env_process : FileInfo -> nat -> nat -> ProcessedDocument + text;
  env_output_exists : bool;
  env_backup_error : option text;
  env_write : text -> option text
}.

(** The text [_write_output] writes for one document ([i] is its
    0-based position among [n] documents). *)
Definition document_block (lib : PyLib) (cfg : MergeConfig) (n i : nat) (doc : ProcessedDocument) : text :=
  let metadata := generate_metadata_comment lib cfg doc in
  let start_marker := generate_semantic_markers cfg doc "start" in
  let chunk_hint := generate_chunk_hint cfg doc in
  let end_marker := generate_semantic_markers cfg doc "end" in
  (match metadata with [] => [] | _ => metadata ++ [nl] end)
  ++ (match start_marker with [] => [] | _ => start_marker ++ [nl] end)
  ++ (match chunk_hint with [] => [] | _ => chunk_hint ++ [nl] end)
  ++ generate_document_header lib cfg doc ++ [nl; nl]
  ++ processed_content doc
  ++ (match end_marker with [] => [] | _ => nl :: end_marker end)
  ++ (if i <? n - 1 then generate_separator cfg else []).

Fixpoint document_blocks (lib : PyLib) (cfg : MergeConfig) (n i : nat) (docs : list ProcessedDocument) : text :=
  match docs with
  | [] => []
  | d :: ds => document_block lib cfg n i d ++ document_blocks lib cfg n (S i) ds
  end.

(** The text written by [MergeEngine._write_output] (merger.py, lines
    218-271). *)
Definition write_output_text (lib : PyLib) (cfg : MergeConfig) (documents : list ProcessedDocument) : text :=
  (if generate_toc cfg && String.eqb (toc_position cfg) "top" then toc_generate cfg documents else [])
  ++ document_blocks lib cfg (length documents) 0 documents
  ++ (if generate_toc cfg && String.eqb (toc_position cfg) "bottom"
      then [nl; nl] ++ toc_generate cfg documents else []).

(** Outcome of the processing loop (Phase 1). *)
Inductive Phase1 :=
| P1Done (docs : list ProcessedDocument) (errs : list text) (bytes : nat)
| P1Cancelled (index : nat) (bytes : nat)
| P1Raised (e : text) (bytes : nat).

(** [for index, file_info in enumerate(files, 1)] (merger.py, lines
    156-189); [n] is [len(files)]. *)
Fixpoint phase1 (env : MergeEnv) (n : nat) (files : list FileInfo) (index : nat)
  (docs : list ProcessedDocument) (errs : list text) (bytes : nat) : Phase1 :=
  match files with
  | [] => P1Done docs errs bytes
  | file_info :: rest =>
      if env_cancelled env index then P1Cancelled index bytes
      else
        match env_callback env index with
        | Some e => P1Raised e bytes
        | None =>
            match env_process env file_info index n with
            | inl doc => phase1 env n rest (S index) (docs ++ [doc]) errs (bytes + fi_size file_info)
            | inr e =>
                phase1 env n rest (S index) docs
                  (errs ++ [t "Error processing " ++ t (path_name (fi_path file_info)) ++ t ": " ++ e])
                  bytes
            end
        end
  end.

(** [MergeEngine.merge] (merger.py, lines 98-216). *)
Definition merge (lib : PyLib) (cfg : MergeConfig) (env : MergeEnv) (files : list FileInfo)
  (out : path) (dry_run : bool) : MergeResult :=
  let warnings :=
    if negb dry_run && create_backup cfg && env_output_exists env then
      match env_backup_error env with
      | Some e => [t "Could not create backup: " ++ e]
      | None => []
      end
    else [] in
  match phase1 env (length files) files 1 [] [] 0 with
  | P1Cancelled index bytes =>
      mkResult false None (index - 1) bytes [t "Merge cancelled by user"] warnings
  | P1Raised e bytes =>
      mkResult false None 0 bytes [t "Merge failed: " ++ e] warnings
  | P1Done docs errs bytes =>
      match (if dry_run then None else env_write env (write_output_text lib cfg docs)) with
      | Some e => mkResult false None 0 bytes [t "Merge failed: " ++ e] warnings
      | None =>
          mkResult (length errs =? 0) (if dry_run then None else Some out)
            (length docs) bytes errs warnings
      end
  end.

Example adjust_ex1 : adjust_header_levels (t "# A") (-3) = t "# A".
Proof. reflexivity. Qed.
Example adjust_ex2 : adjust_header_levels (t "###### A") 5 = t "###### A".
Proof. reflexivity. Qed.
Example adjust_ex3 :
  adjust_header_levels (t "x # y
## B
text
####### C") 1 = t "x # y
### B
text
####### C".
Proof. reflexivity. Qed.
Example fm_ex1 :
  extract_front_matter (t "---
a: 1
---

body") = (Some (t "a: 1"), t "body").
Proof. reflexivity. Qed.
Example ws_ex1 :
  normalize_whitespace (t "

a



b
 ") 1 = t "a

b
".
Proof. reflexivity. Qed.

(** The text [merge] hands to [_write_output] for [output_path] ([None]:
    the run stops before the write phase, or [dry_run]). *)
Definition merge_written_text (lib : PyLib) (cfg : MergeConfig) (env : MergeEnv)
  (files : list FileInfo) (dry_run : bool) : option text :=
  match phase1 env (length files) files 1 [] [] 0 with
  | P1Done docs _ _ => if dry_run then None else Some (write_output_text lib cfg docs)
  | _ => None
  end.

(** ** Concrete inputs *)

Definition ex_lib : PyLib := mkPyLib (fun _ => t "{}") (fun _ name => t "## " ++ name).

Definition ex_doc (f : FileInfo) (i n : nat) : ProcessedDocument :=
  mkDoc (fi_path f) [] (fi_preview f) [] [] None (fi_size f) (fi_modified f) i n.

Definition ex_file (name : string) (size : nat) (mtime : Z) : FileInfo :=
  mkFileInfo [name] size mtime None [].

(** A run where no cancellation, callback error or write error happens and
    every file is read and processed. *)
Definition ex_env_ok : MergeEnv :=
  mkEnv (fun _ => false) (fun _ => None) (fun f i n => inl (ex_doc f i n)) false None (fun _ => None).

(** The same run where the first file cannot be read and [cancel()] has been
    called before the check of the second file. *)
Definition ex_env_cancel : MergeEnv :=
  mkEnv (fun i => 2 <=? i) (fun _ => None)
    (fun f i n => if i =? 1 then inr (t "[Errno 13] Permission denied") else inl (ex_doc f i n))
    false None (fun _ => None).

(** The same run where writing the output raises. *)
Definition ex_env_write_fails : MergeEnv :=
  mkEnv (fun _ => false) (fun _ => None) (fun f i n => inl (ex_doc f i n)) false None
    (fun _ => Some (t "[Errno 28] No space left on device")).

Definition ex_files : list FileInfo := [ex_file "a.md" 10 100; ex_file "b.md" 20 200].

(** A file system with [a.md] and [notes/b.md]. *)
Definition ex_fs : list entry :=
  [FileE "a.md" 3 100 (t "# A"); DirE "notes" true [FileE "b.md" 3 200 (t "# A")]].

(** ** Line endings, header extraction and keywords (helpers.py) *)

Definition cr : ascii := "013"%char.
Definition is_cr (c : ascii) : bool := Ascii.eqb c cr.

(** [s.replace('\r\n', '\n')]: left to right, without overlaps. *)
Fixpoint replace_crlf (s : text) : text :=
  match s with
  | [] => []
  | c :: s' =>
      if is_cr c then
        match s' with
        | d :: s'' => if is_nl d then nl :: replace_crlf s'' else c :: replace_crlf s'
        | [] => [c]
        end
      else c :: replace_crlf s'
  end.

(** [s.replace('\r', '\n')] *)
Definition replace_cr (s : text) : text := map (fun c => if is_cr c then nl else c) s.

(** [s.replace('\n', '\r\n')] *)
Definition replace_lf_crlf (s : text) : text :=
  flat_map (fun c => if is_nl c then [cr; nl] else [c]) s.

(** [normalize_line_endings] (helpers.py, lines 110-118). *)
Definition normalize_line_endings (content : text) (style : string) : text :=
  let content := replace_cr (replace_crlf content) in
  if text_eqb (lower (t style)) (t "crlf") then replace_lf_crlf content else content.

(** One attempt of [^(#{1,6})\s+(.+)$] (MULTILINE) at the start of a line:
    the level, group 2 and the text after the match.  [#{1,6}] must take
    the whole run of ['#'] (a shorter one is followed by ['#'], not by
    [\s]); [\s+] takes the whole run of whitespace, newlines included.  When
    a character follows that run, it is not a newline and [.+] runs to the
    end of its line.  When the run reaches the end of the text, [\s+] gives
    back characters one at a time until [.+] can start on one that is not a
    newline: group 2 is then that single character. *)
Definition header_at (s : text) : option (nat * text * text) :=
  let (hs, r) := span is_hash s in
  let h := length hs in
  if (1 <=? h) && (h <=? 6) then
    let (ws, r') := span is_space r in
    match ws, r' with
    | [], _ => None
    | _ :: _, _ :: _ =>
        let (g2, rest) := span (fun c => negb (is_nl c)) r' in Some (h, g2, rest)
    | _ :: ws', [] =>
        let (nls, rback) := span is_nl (rev ws') in
        match rback with
        | c :: _ => Some (h, [c], nls)
        | [] => None
        end
    end
  else None.

(** [re.finditer] of that pattern: a match is tried at each line start
    ([bol]), the scan goes on after the end of a match. *)
Fixpoint scan_headers (fuel : nat) (bol : bool) (s : text) : list (nat * text) :=
  match fuel with
  | O => []
  | S fuel' =>
      match s with
      | [] => []
      | c :: s' =>
          match (if bol then header_at s else None) with
          | Some (h, g2, rest) => (h, g2) :: scan_headers fuel' false rest
          | None => scan_headers fuel' (is_nl c) s'
          end
      end
  end.

(** [extract_headers] (helpers.py, lines 136-151). *)
Definition extract_headers (content : text) (max_depth : Z) : list (nat * text) :=
  map (fun '(h, g2) => (h, py_strip g2))
    (filter (fun '(h, _) => (Z.of_nat h <=? max_depth)%Z)
       (scan_headers (S (length content)) true content)).

Definition is_upper (c : ascii) : bool :=
  let n := nat_of_ascii c in (65 <=? n) && (n <=? 90).
Definition is_lower (c : ascii) : bool :=
  let n := nat_of_ascii c in (97 <=? n) && (n <=? 122).

(** [[A-Z][a-z]+] at the head of [s]: [[a-z]+] takes the whole run. *)
Definition cap_word (s : text) : option (text * text) :=
  match s with
  | c :: s' =>
      if is_upper c then
        match span is_lower s' with
        | ([], _) => None
        | (low, rest) => Some (c :: low, rest)
        end
      else None
  | [] => None
  end.

(** The iterations of [(?:\s+[A-Z][a-z]+)*] taken greedily: each matched
    group and the text after it. *)
Fixpoint cap_groups (fuel : nat) (r : text) : list (text * text) :=
  match fuel with
  | O => []
  | S fuel' =>
      let (ws, r2) := span is_space r in
      match ws with
      | [] => []
      | _ :: _ =>
          match cap_word r2 with
          | Some (w, r3) => (ws ++ w, r3) :: cap_groups fuel' r3
          | None => []
          end
      end
  end.

(** [\b] after a lower-case letter. *)
Definition word_end (r : text) : bool :=
  match r with [] => true | c :: _ => negb (is_word c) end.

(** [[A-Z][a-z]+(?:\s+[A-Z][a-z]+)*\b] at the head of [s] (the leading [\b]
    is checked by the scan).  If the final [\b] fails after the last group,
    backtracking drops that group: the text after the previous one starts
    with whitespace. *)
Definition cap_match (s : text) : option (text * text) :=
  match cap_word s with
  | None => None
  | Some (w1, r1) =>
      let gs := cap_groups (length r1) r1 in
      match rev gs with
      | [] => if word_end r1 then Some (w1, r1) else None
      | (_, rl) :: earlier =>
          if word_end rl then Some (w1 ++ concat (map fst gs), rl)
          else Some (w1 ++ concat (map fst (removelast gs)),
                     match earlier with [] => r1 | (_, r') :: _ => r' end)
      end
  end.

(** [re.findall(r'\b[A-Z][a-z]+(?:\s+[A-Z][a-z]+)*\b', text)];
    [prev_word]: the character before the position is a word character. *)
Fixpoint find_caps (fuel : nat) (prev_word : bool) (s : text) : list text :=
  match fuel with
  | O => []
  | S fuel' =>
      match s with
      | [] => []
      | c :: s' =>
          match (if prev_word then None else cap_match s) with
          | Some (m, rest) => m :: find_caps fuel' true rest
          | None => find_caps fuel' (is_word c) s'
          end
      end
  end.

(** [d d ([^d]+) d d] (when [double]) or [d ([^d]+) d] at the head of [s]:
    the group and the rest. *)
Definition delim_match (d : ascii) (double : bool) (s : text) : option (text * text) :=
  let body s1 :=
    let (x, r) := span (fun c => negb (Ascii.eqb c d)) s1 in
    match x, r with
    | [], _ => None
    | _ :: _, e1 :: e2 :: rest =>
        if double then (if Ascii.eqb e1 d && Ascii.eqb e2 d then Some (x, rest) else None)
        else Some (x, e2 :: rest)
    | _ :: _, [e1] => if double then None else Some (x, [])
    | _ :: _, [] => None
    end in
  match s with
  | c1 :: c2 :: s1 => if double then (if Ascii.eqb c1 d && Ascii.eqb c2 d then body s1 else None)
                      else if Ascii.eqb c1 d then body (c2 :: s1) else None
  | [c1] => if double then None else if Ascii.eqb c1 d then body [] else None
  | [] => None
  end.

(** [\*\*([^*]+)\*\*|\*([^*]+)\*|__([^_]+)__|_([^_]+)_], alternatives in
    order. *)
Definition emph_match (s : text) : option (text * text) :=
  match delim_match "*"%char true s with
  | Some m => Some m
  | None =>
      match delim_match "*"%char false s with
      | Some m => Some m
      | None =>
          match delim_match "_"%char true s with
          | Some m => Some m
          | None => delim_match "_"%char false s
          end
      end
  end.

(** [re.findall] of the emphasis pattern: the one non-empty group of each
    match. *)
Fixpoint find_emph (fuel : nat) (s : text) : list text :=
  match fuel with
  | O => []
  | S fuel' =>
      match s with
      | [] => []
      | _ :: s' =>
          match emph_match s with
          | Some (x, rest) => x :: find_emph fuel' rest
          | None => find_emph fuel' s'
          end
      end
  end.

(** [set.add] on a set kept as a list. *)
Definition set_add (acc : list text) (x : text) : list text :=
  if existsb (text_eqb x) acc then acc else acc ++ [x].

(** [extract_keywords] (helpers.py, lines 203-226); [sorted] on distinct
    strings. *)
Definition extract_keywords (content : text) (max_keywords : nat) : list text :=
  let headers := extract_headers content 6 in
  let keywords :=
    fold_left set_add (flat_map (fun '(_, txt) => find_caps (S (length txt)) false txt) headers) [] in
  let keywords :=
    fold_left (fun acc x => if 3 <? length x then set_add acc (py_strip x) else acc)
      (find_emph (S (length content)) content) keywords in
  let filtered := filter (fun k => (2 <? length k) && negb (is_digit_text k)) keywords in
  firstn max_keywords (stable_sort text_ltb filtered).

(** ** [ContentProcessor.process_document] (processor.py, lines 45-104) *)

(** The [MergeConfig] fields read by [process_document] besides
    [toc_depth]; [normalize_ws] is the field [normalize_whitespace]. *)
Record ProcessConfig := mkProcessConfig {
  strip_front_matter : bool;
  adjust_header_level : Z;
  normalize_ws : bool;
  max_consecutive_blanks : nat;
  line_ending : string;
  cfg_extract_keywords : bool
}.

(** [st_size] and [st_mtime] are what [filepath.stat()] returns. *)
Definition process_document (cfg : MergeConfig) (pcfg : ProcessConfig) (filepath : path)
  (content : text) (index total_count : nat) (st_size : nat) (st_mtime : Z) : ProcessedDocument :=
  let original_content := content in
  let '(front_matter, content) :=
    if strip_front_matter pcfg then extract_front_matter content else (None, content) in
  let content :=
    if negb (adjust_header_level pcfg =? 0)%Z
    then adjust_header_levels content (adjust_header_level pcfg) else content in
  let content :=
    if normalize_ws pcfg then normalize_whitespace content (max_consecutive_blanks pcfg) else content in
  let content := normalize_line_endings content (line_ending pcfg) in
  let headers := extract_headers content (toc_depth cfg) in
  let keywords := if cfg_extract_keywords pcfg then extract_keywords content 10 else [] in
  mkDoc filepath original_content content headers keywords front_matter st_size st_mtime
    index total_count.

(** ** [MergeEngine.generate_preview] (merger.py, lines 285-352) *)

(** [l[:k]] for an [int] [k]. *)
Definition py_take {A} (l : list A) (k : Z) : list A :=
  if (0 <=? k)%Z then firstn (Z.to_nat k) l else firstn (length l - Z.to_nat (- k)) l.

(** The lines of one previewed file ([i] is 1-based, [n] is [len(files)],
    [np] is [len(preview_files)]); reading and processing are
    [env_process], as in [merge]. *)
Definition preview_doc_lines (lib : PyLib) (cfg : MergeConfig) (env : MergeEnv) (n np i : nat)
  (file_info : FileInfo) : list text :=
  match env_process env file_info i n with
  | inl doc =>
      [generate_document_header lib cfg doc; []]
      ++ firstn 20 (split_nl (processed_content doc))
      ++ (if (np <? n) || (i <? np) then [generate_separator cfg] else [])
  | inr e => [t "[Error previewing " ++ t (path_name (fi_path file_info)) ++ t ": " ++ e ++ t "]"]
  end.

Fixpoint preview_docs (lib : PyLib) (cfg : MergeConfig) (env : MergeEnv) (n np i : nat)
  (fs : list FileInfo) : list text :=
  match fs with
  | [] => []
  | f :: fs' => preview_doc_lines lib cfg env n np i f ++ preview_docs lib cfg env n np (S i) fs'
  end.

(** The list [lines] that [generate_preview] joins, for a non-empty
    [files]. *)
Definition preview_lines (lib : PyLib) (cfg : MergeConfig) (env : MergeEnv) (files : list FileInfo)
  (max_lines : Z) : list text :=
  let n := length files in
  let preview_files := firstn 3 files in
  let np := length preview_files in
  let toc :=
    if generate_toc cfg then
      [t "# Table of Contents"; []]
      ++ map (fun f => t "- " ++ path_stem (fi_path f)) (firstn 10 files)
      ++ (if 10 <? n then [t "... and " ++ show_nat (n - 10) ++ t " more"] else [])
      ++ [[]; t "---"; []]
    else [] in
  let lines :=
    toc ++ preview_docs lib cfg env n np 1 preview_files
    ++ (if np <? n then [t "... " ++ show_nat (n - np) ++ t " more files ..."] else []) in
  if (max_lines <? Z.of_nat (length lines))%Z
  then py_take lines max_lines ++ [[]; t "... (preview truncated) ..."]
  else lines.

Definition generate_preview (lib : PyLib) (cfg : MergeConfig) (env : MergeEnv) (files : list FileInfo)
  (max_lines : Z) : text :=
  match files with
  | [] => t "No files to preview."
  | _ => join_nl (preview_lines lib cfg env files max_lines)
  end.

(** ** [MainWindow.add_paths] (gui/main_window.py, lines 645-663) *)

(** [Path] equality: component-wise. *)
Fixpoint path_eqb (a b : path) : bool :=
  match a, b with
  | [], [] => true
  | x :: a', y :: b' => String.eqb x y && path_eqb a' b'
  | _, _ => false
  end.

(** The list [self.files] after the loop: [existing_paths] is computed once,
    before any file of [new_files] is appended. *)
Definition add_new_files (files new_files : list FileInfo) : list FileInfo :=
  let existing_paths := map fi_path files in
  fold_left (fun acc f => if existsb (path_eqb (fi_path f)) existing_paths then acc else acc ++ [f])
    new_files files.

Definition add_paths (cfg : AnalyzerConfig) (fs : list entry) (files : list FileInfo) (paths : list path)
  : list FileInfo :=
  add_new_files files (discover_files cfg fs paths).

(** [FileInfo.__eq__] generated by [@dataclass]: all fields compared. *)
Definition opt_string_eqb (a b : option string) : bool :=
  match a, b with
  | Some x, Some y => String.eqb x y
  | None, None => true
  | _, _ => false
  end.

Definition fileinfo_eqb (a b : FileInfo) : bool :=
  path_eqb (fi_path a) (fi_path b) && Nat.eqb (fi_size a) (fi_size b)
  && Z.eqb (fi_modified a) (fi_modified b) && opt_string_eqb (fi_hash a) (fi_hash b)
  && text_eqb (fi_preview a) (fi_preview b).

(** [list.remove]: the first element equal to [x] is removed. *)
Fixpoint list_remove (x : FileInfo) (l : list FileInfo) : list FileInfo :=
  match l with
  | [] => []
  | y :: l' => if fileinfo_eqb x y then l' else y :: list_remove x l'
  end.

(** [MainWindow.remove_selected] (gui/main_window.py, lines 689-697) on
    [self.files]; [selected] are the [FileInfo] values of the selected
    items. *)
Definition remove_selected (files selected : list FileInfo) : list FileInfo :=
  fold_left (fun acc file_info =>
               if existsb (fileinfo_eqb file_info) acc then list_remove file_info acc else acc)
    selected files.

(** The defaults of the [ProcessConfig] fields (config.py). *)
Definition default_process_config : ProcessConfig := mkProcessConfig true 0 true 2 "lf" false.

(** Induction on directory trees, through the list of children. *)
Section EntryInd.
Variable P : entry -> Prop.
Hypothesis HFile : forall n sz mt c, P (FileE n sz mt c).
Hypothesis HDir : forall n r ch, Forall P ch -> P (DirE n r ch).
Fixpoint entry_ind' (e : entry) : P e :=
  match e with
  | FileE n sz mt c => HFile n sz mt c
  | DirE n r ch =>
      HDir n r ch
        ((fix go (l : list entry) : Forall P l :=
            match l with
            | [] => Forall_nil P
            | x :: l' => Forall_cons x (entry_ind' x) (go l')
            end) ch)
  end.
End EntryInd.

(** * Predicates used in the statements *)

Definition no_nl (a : text) : Prop := forallb (fun c => negb (is_nl c)) a = true.

Definition not_hash_head (w : text) : Prop :=
  match w with [] => True | c :: _ => is_hash c = false end.

(** How an input line relates to the output line at the same position:
    unchanged, or a line starting with 1..6 ['#'] whose run of ['#'] is
    replaced by [new_level] of them, the rest of the line kept. *)
Definition shifted_line (offset : Z) (lin lout : text) : Prop :=
  lout = lin \/
  (1 <= leading_hashes lin <= 6 /\
   leading_hashes lout = new_level (leading_hashes lin) offset /\
   1 <= leading_hashes lout <= 6 /\
   skipn (leading_hashes lout) lout = skipn (leading_hashes lin) lin).

(** [runs_below k q s]: preceded by [q] newlines, [s] has no run of [k]
    or more consecutive newlines. *)
Fixpoint runs_below (k q : nat) (s : text) : bool :=
  match s with
  | [] => true
  | c :: s' => if is_nl c then (S q <? k) && runs_below k (S q) s' else runs_below k 0 s'
  end.

(** A closing front-matter delimiter line: its [strip()] is ['---']. *)
Definition is_delim (l : text) : bool := text_eqb (py_strip l) (t "---").

(** The text [TOCGenerator.generate] returns for no document when the
    TOC is enabled. *)
Definition empty_toc_text : text := t "# Table of Contents" ++ [nl; nl; nl] ++ t "---" ++ [nl].

(** The documents the processing loop obtains from [files] (numbered from
    [i]) when nothing stops it, and the number of files whose processing
    raised. *)
Fixpoint ok_docs (env : MergeEnv) (n : nat) (files : list FileInfo) (i : nat) : list ProcessedDocument :=
  match files with
  | [] => []
  | f :: rest =>
      match env_process env f i n with
      | inl d => d :: ok_docs env n rest (S i)
      | inr _ => ok_docs env n rest (S i)
      end
  end.

Fixpoint failed_count (env : MergeEnv) (n : nat) (files : list FileInfo) (i : nat) : nat :=
  match files with
  | [] => 0
  | f :: rest =>
      match env_process env f i n with
      | inl _ => failed_count env n rest (S i)
      | inr _ => S (failed_count env n rest (S i))
      end
  end.

(** No carriage return. *)
Definition no_cr (s : text) : bool := forallb (fun c => negb (is_cr c)) s.

(** Every carriage return is followed by a line feed and every line feed
    is preceded by a carriage return. *)
Fixpoint crlf_only (s : text) : bool :=
  match s with
  | [] => true
  | c :: s' =>
      if is_cr c then
        match s' with
        | d :: s'' => is_nl d && crlf_only s''
        | [] => false
        end
      else negb (is_nl c) && crlf_only s'
  end.

(** Each element is related by [le] to the next one. *)
Fixpoint sorted_by {A} (le : A -> A -> bool) (l : list A) : bool :=
  match l with
  | x :: ((y :: _) as l') => le x y && sorted_by le l'
  | _ => true
  end.

(** The sizes of the files whose processing succeeded. *)
Fixpoint ok_bytes (env : MergeEnv) (n : nat) (files : list FileInfo) (i : nat) : nat :=
  match files with
  | [] => 0
  | f :: rest =>
      match env_process env f i n with
      | inl _ => fi_size f + ok_bytes env n rest (S i)
      | inr _ => ok_bytes env n rest (S i)
      end
  end.

(** A character [generate_anchor] can output: a word character that is
    not an upper-case letter, or ['-']. *)
Definition anchor_char (c : ascii) : bool :=
  (is_word c && negb (is_upper c)) || Ascii.eqb c "-"%char.

(** The loop over the children of a directory in [scan_directory], as a
    function of its own. *)
Definition scan_children (cfg : AnalyzerConfig) (dir : path) (current_depth : nat)
  : list entry -> list FileInfo :=
  fix scan_entries (es : list entry) : list FileInfo :=
    match es with
    | [] => []
    | FileE n sz mt c :: es' =>
        let p := dir ++ [n] in
        (if matches_filters cfg p then [analyze_file p sz mt c] else [])
        ++ scan_entries es'
    | (DirE n _ _ as d) :: es' =>
        (if recursive cfg then
           if starts_with (t ".") (t n) then []
           else scan_directory cfg (dir ++ [n]) d (S current_depth)
         else [])
        ++ scan_entries es'
    end.

(** The list stored under key [h] in an insertion-ordered dict kept as an
    association list ([hash_map.get(h, [])]). *)
Definition bucket_of (h : string) (m : list (string * list FileInfo)) : list FileInfo :=
  match find (fun p => String.eqb (fst p) h) m with Some p => snd p | None => [] end.

(** The input files whose content hashes to [h], with [hash] set as
    [detect_duplicates] sets it. *)
Definition files_with_hash (md5 : text -> string) (fs : list entry) (h : string)
  (files : list FileInfo) : list FileInfo :=
  map (fun f => mkFileInfo (fi_path f) (fi_size f) (fi_modified f) (Some h) (fi_preview f))
    (filter (fun f => match calculate_file_hash md5 fs (fi_path f) with
                      | Some h' => String.eqb h' h
                      | None => false
                      end) files).

(** The characters [fnmatch] gives a meaning to in a pattern. *)
Definition glob_special (c : ascii) : bool :=
  Ascii.eqb c "*"%char || Ascii.eqb c "?"%char || Ascii.eqb c "["%char.

(** A natural sort key alternates [str] and [int] parts, starting and
    ending with a [str] part. *)
Fixpoint alternating (k : list (Z + text)) : bool :=
  match k with
  | [inr _] => true
  | inr _ :: inl _ :: k' => alternating k'
  | _ => false
  end.

(** The pieces of [re.split(r'(\d+)', s)]: runs without digits alternating
    with runs of digits, starting and ending with a run without digits. *)
Fixpoint seg_shape (l : list text) : bool :=
  match l with
  | [a] => forallb (fun c => negb (is_digit c)) a
  | a :: d :: l' => forallb (fun c => negb (is_digit c)) a && is_digit_text d && seg_shape l'
  | [] => false
  end.

(** The texts [xs] occur in [s] one after the other, without overlapping. *)
Fixpoint in_order (xs : list text) (s : text) : Prop :=
  match xs with
  | [] => True
  | x :: xs' => exists a b, s = a ++ x ++ b /\ in_order xs' b
  end.

(** * Properties *)

(** ** Lemmas on the text primitives *)

Lemma span_spec p s a b :
  span p s = (a, b) ->
  s = a ++ b /\ forallb p a = true /\ (b = [] \/ exists c b', b = c :: b' /\ p c = false).
Proof.
  revert a b; induction s as [|c s IH]; intros a b H; simpl in H.
  - inversion H; subst; simpl; auto.
  - destruct (p c) eqn:Hc.
    + destruct (span p s) as [a' b'] eqn:E.
      destruct (IH a' b' eq_refl) as (-> & Hf & Hb).
      inversion H; subst. simpl. rewrite Hc, Hf. auto.
    + inversion H; subst. simpl. split; [reflexivity|]. split; [reflexivity|]. right; eauto.
Qed.

Lemma is_nl_true c : is_nl c = true -> c = nl.
Proof. unfold is_nl. apply Ascii.eqb_eq. Qed.

Lemma is_hash_true c : is_hash c = true -> c = hash_c.
Proof. unfold is_hash. apply Ascii.eqb_eq. Qed.

Lemma space_not_hash c : is_space c = true -> is_hash c = false.
Proof.
  intros Hs. destruct (is_hash c) eqn:Hh; [|reflexivity].
  apply is_hash_true in Hh. subst. discriminate.
Qed.

Lemma forallb_hash_repeat h : forallb is_hash h = true -> h = repeat hash_c (length h).
Proof.
  induction h as [|c h IH]; simpl; [reflexivity|].
  intros H. apply andb_true_iff in H as [H1 H2].
  apply is_hash_true in H1. subst. f_equal. auto.
Qed.

Lemma split_nl_cons s : exists l ls, split_nl s = l :: ls.
Proof.
  induction s as [|c s IH]; simpl; [eauto|].
  destruct (is_nl c); [eauto|]. destruct IH as (l & ls & ->). eauto.
Qed.

Lemma split_nl_app_nl a b : split_nl (a ++ nl :: b) = split_nl a ++ split_nl b.
Proof.
  induction a as [|c a IH]; [reflexivity|].
  simpl. rewrite IH. destruct (is_nl c); [reflexivity|].
  destruct (split_nl_cons a) as (l & ls & ->). reflexivity.
Qed.

Lemma split_nl_no_nl_app a b l ls :
  no_nl a -> split_nl b = l :: ls -> split_nl (a ++ b) = (a ++ l) :: ls.
Proof.
  unfold no_nl. intros Ha Hb. induction a as [|c a IH]; simpl; [exact Hb|].
  simpl in Ha. apply andb_true_iff in Ha as [H1 H2].
  apply negb_true_iff in H1. rewrite H1, (IH H2). reflexivity.
Qed.

Lemma split_nl_line_end t0 :
  (t0 = [] \/ exists t', t0 = nl :: t') -> exists ls, split_nl t0 = [] :: ls.
Proof. intros [-> | (t' & ->)]; simpl; eauto. Qed.

(** ** C1: header-level shift *)

Lemma new_level_bounds k offset : 1 <= new_level k offset <= 6.
Proof. unfold new_level. lia. Qed.

Lemma span_hash_repeat k w :
  not_hash_head w -> span is_hash (repeat hash_c k ++ w) = (repeat hash_c k, w).
Proof.
  intros Hw. induction k as [|k IH]; simpl.
  - destruct w as [|c w]; simpl; [reflexivity|]. simpl in Hw. rewrite Hw. reflexivity.
  - rewrite IH. reflexivity.
Qed.

Lemma leading_hashes_repeat k w :
  not_hash_head w -> leading_hashes (repeat hash_c k ++ w) = k.
Proof.
  intros Hw. unfold leading_hashes. rewrite span_hash_repeat by exact Hw.
  apply repeat_length.
Qed.

Lemma skipn_repeat_app {A} (x : A) k w : skipn k (repeat x k ++ w) = w.
Proof. induction k; simpl; auto. Qed.

Lemma shifted_line_refl offset ls : Forall2 (shifted_line offset) ls ls.
Proof. induction ls; constructor; [left; reflexivity | assumption]. Qed.

Lemma shifted_line_header offset k w :
  1 <= k <= 6 -> not_hash_head w ->
  shifted_line offset (repeat hash_c k ++ w) (repeat hash_c (new_level k offset) ++ w).
Proof.
  intros Hk Hw. right.
  rewrite !leading_hashes_repeat by exact Hw. rewrite !skipn_repeat_app.
  pose proof (new_level_bounds k offset). repeat split; lia.
Qed.

Lemma header_match_spec s k g2 rest :
  header_match s = Some (k, g2, rest) ->
  s = repeat hash_c k ++ g2 ++ rest /\ 1 <= k <= 6 /\
  (exists w1 t0, g2 = w1 ++ t0 /\ no_nl w1 /\ not_hash_head w1 /\
                 (t0 = [] \/ exists t', t0 = nl :: t')) /\
  (rest = [] \/ exists r', rest = nl :: r').
Proof.
  unfold header_match.
  destruct (span is_hash s) as [h r] eqn:E1.
  destruct (span_spec _ _ _ _ E1) as (Hs & Hh & _).
  destruct r as [|c r0]; [discriminate|].
  destruct ((1 <=? length h) && (length h <=? 6) && is_space c) eqn:E2; [|discriminate].
  apply andb_true_iff in E2 as [E2 Hc]. apply andb_true_iff in E2 as [E2a E2b].
  apply Nat.leb_le in E2a, E2b.
  destruct (span is_space (c :: r0)) as [ws r2] eqn:E3.
  destruct (span (fun c => negb (is_nl c)) r2) as [dots r3] eqn:E4.
  intros H. inversion H; subst k g2 rest. clear H.
  destruct (span_spec _ _ _ _ E3) as (H3 & _ & _).
  destruct (span_spec _ _ _ _ E4) as (H4 & _ & H4r).
  assert (Hws : exists ws', ws = c :: ws').
  { simpl in E3. rewrite Hc in E3. destruct (span is_space r0).
    inversion E3; eauto. }
  destruct Hws as (ws' & ->).
  rewrite (forallb_hash_repeat h Hh) in Hs.
  split; [rewrite Hs, H3, H4, <- app_assoc; reflexivity|].
  split; [lia|].
  split.
  - destruct (span (fun c => negb (is_nl c)) (c :: ws' ++ dots)) as [w1 t0] eqn:E5.
    destruct (span_spec _ _ _ _ E5) as (H5 & H5f & H5r).
    exists w1, t0. split; [exact H5|]. split; [exact H5f|]. split.
    + destruct w1 as [|d w1]; simpl; [exact I|].
      simpl in H5. inversion H5; subst d. apply space_not_hash, Hc.
    + destruct H5r as [-> | (d & b' & -> & Hd)]; [left; reflexivity|].
      right. apply negb_false_iff, is_nl_true in Hd. subst d. eauto.
  - destruct H4r as [-> | (d & b' & -> & Hd)]; [left; reflexivity|].
    right. apply negb_false_iff, is_nl_true in Hd. subst d. eauto.
Qed.

Lemma sub_headers_false_nil fuel offset : sub_headers fuel offset false [] = [].
Proof. destruct fuel; reflexivity. Qed.

Lemma sub_headers_copy offset a r fuel :
  no_nl a -> length a < fuel ->
  sub_headers fuel offset false (a ++ r) = a ++ sub_headers (fuel - length a) offset false r.
Proof.
  unfold no_nl. revert fuel.
  induction a as [|c a IH]; intros fuel Ha Hf.
  - simpl. rewrite Nat.sub_0_r. reflexivity.
  - destruct fuel as [|fuel]; [simpl in Hf; lia|].
    simpl in Ha. apply andb_true_iff in Ha as [H1 H2]. apply negb_true_iff in H1.
    simpl. rewrite H1, IH by (simpl in Hf; auto with arith). reflexivity.
Qed.

Lemma sub_headers_lines offset :
  forall n s fuel, length s < n -> length s < fuel ->
  Forall2 (shifted_line offset) (split_nl s) (split_nl (sub_headers fuel offset true s)).
Proof.
  induction n as [|n IH]; intros s fuel Hn Hf; [lia|].
  destruct fuel as [|fuel]; [lia|].
  cbn [sub_headers].
  destruct (header_match s) as [[[k g2] rest]|] eqn:Hm.
  - destruct (header_match_spec _ _ _ _ Hm)
      as (Hs & Hk & (w1 & t0 & Hg & Hw1 & Hh & Ht0) & Hrest).
    subst s g2.
    destruct (split_nl_line_end t0 Ht0) as (ls & Hls).
    assert (HA : forall j, no_nl (repeat hash_c j ++ w1)).
    { intros j. unfold no_nl in *. rewrite forallb_app, Hw1, andb_true_r.
      induction j; simpl; auto. }
    destruct Hrest as [-> | (r' & ->)].
    + rewrite sub_headers_false_nil, !app_nil_r, !app_assoc.
      rewrite !(split_nl_no_nl_app _ _ _ _ (HA _) Hls).
      constructor; [rewrite !app_nil_r; apply shifted_line_header; assumption
                   | apply shifted_line_refl].
    + destruct fuel as [|fuel]; [rewrite !length_app in Hf; simpl in Hf; lia|].
      cbn [sub_headers]. change (is_nl nl) with true.
      rewrite !app_assoc, !split_nl_app_nl.
      rewrite !(split_nl_no_nl_app _ _ _ _ (HA _) Hls).
      apply Forall2_app.
      * constructor; [rewrite !app_nil_r; apply shifted_line_header; assumption
                   | apply shifted_line_refl].
      * apply IH; rewrite !length_app, repeat_length in Hn, Hf; simpl in Hn, Hf; lia.
  - destruct s as [|c s']; [constructor; [left; reflexivity | constructor]|].
    destruct (is_nl c) eqn:Hc.
    + simpl. rewrite Hc. constructor; [left; reflexivity|].
      apply IH; simpl in Hn, Hf; lia.
    + destruct (span (fun c => negb (is_nl c)) s') as [a r] eqn:Ea.
      destruct (span_spec _ _ _ _ Ea) as (-> & Ha & Hr).
      rewrite sub_headers_copy by (exact Ha || (simpl in Hf; rewrite length_app in Hf; lia)).
      destruct Hr as [-> | (d & r' & -> & Hd)].
      * rewrite sub_headers_false_nil. apply shifted_line_refl.
      * apply negb_false_iff, is_nl_true in Hd. subst d.
        simpl in Hf, Hn. rewrite length_app in Hf, Hn. simpl in Hf, Hn.
        destruct (fuel - length a) as [|f'] eqn:Ef; [lia|].
        cbn [sub_headers]. change (is_nl nl) with true.
        change (c :: a ++ nl :: r') with ((c :: a) ++ nl :: r').
        change (c :: a ++ nl :: sub_headers f' offset true r')
          with ((c :: a) ++ nl :: sub_headers f' offset true r').
        rewrite !split_nl_app_nl. apply Forall2_app; [apply shifted_line_refl|].
        apply IH; lia.
Qed.

(** C1.  For every content and every offset, the lines of
    [adjust_header_levels content offset] correspond one to one to the
    input lines; each output line is the input line unchanged, or the input
    line began with a header marker of depth 1..6 and its depth became
    [max 1 (min 6 (depth + offset))], always in [1,6], the rest of the line
    unchanged.  A depth-1 header shifted by -3 stays at depth 1 and a
    depth-6 header shifted by +5 stays at depth 6. *)
Theorem adjust_header_levels_clamped (content : text) (offset : Z) :
  Forall2 (shifted_line offset) (split_nl content) (split_nl (adjust_header_levels content offset))
  /\ adjust_header_levels (t "# A") (-3) = t "# A"
  /\ adjust_header_levels (t "###### A") 5 = t "###### A".
Proof.
  split; [|split; reflexivity].
  unfold adjust_header_levels. destruct (Z.eqb offset 0).
  - apply shifted_line_refl.
  - apply (sub_headers_lines offset (S (length content))); lia.
Qed.

(** ** C6: whitespace normalization *)

Lemma flush_newlines_repeat k r p :
  r < k -> exists m, flush_newlines k r p = repeat nl m /\ m < k.
Proof.
  intros Hr. unfold flush_newlines. destruct (k <=? p) eqn:E.
  - eauto.
  - apply Nat.leb_gt in E. eauto.
Qed.

Lemma runs_below_repeat k q n x :
  q + n < k -> runs_below k (q + n) x = true -> runs_below k q (repeat nl n ++ x) = true.
Proof.
  revert q. induction n as [|n IH]; intros q Hk Hx; simpl.
  - rewrite Nat.add_0_r in Hx. exact Hx.
  - change (is_nl nl) with true. apply andb_true_iff. split.
    + apply Nat.ltb_lt. lia.
    + apply IH; [lia|]. rewrite <- Hx. f_equal. lia.
Qed.

Lemma runs_below_collapse k r :
  r < k -> forall s p, runs_below k 0 (collapse_newlines k r p s) = true.
Proof.
  intros Hr s. induction s as [|c s IH]; intros p; simpl.
  - destruct (flush_newlines_repeat k r p Hr) as (m & -> & Hm).
    rewrite <- (app_nil_r (repeat nl m)). apply runs_below_repeat; simpl; [lia | reflexivity].
  - destruct (is_nl c) eqn:Hc; [apply IH|].
    destruct (flush_newlines_repeat k r p Hr) as (m & -> & Hm).
    apply runs_below_repeat; [lia|]. simpl. rewrite Hc. apply IH.
Qed.

Lemma repeat_snoc {A} (x : A) n l : repeat x (S n) ++ l = repeat x n ++ x :: l.
Proof. induction n; simpl; [reflexivity|]. rewrite <- IHn. reflexivity. Qed.

Lemma collapse_runs_below k r :
  forall s p, runs_below k p s = true -> p < k -> collapse_newlines k r p s = repeat nl p ++ s.
Proof.
  intros s. induction s as [|c s IH]; intros p Hs Hp; simpl.
  - unfold flush_newlines. apply Nat.leb_gt in Hp. rewrite Hp, app_nil_r. reflexivity.
  - simpl in Hs. destruct (is_nl c) eqn:Hc.
    + apply andb_true_iff in Hs as [H1 H2]. apply Nat.ltb_lt in H1.
      apply is_nl_true in Hc. subst c.
      rewrite IH by assumption. apply repeat_snoc.
    + unfold flush_newlines. assert (Hp' := proj2 (Nat.leb_gt k p) Hp). rewrite Hp'.
      rewrite IH by (assumption || lia). reflexivity.
Qed.

Lemma runs_below_mono k s :
  forall q q', q' <= q -> runs_below k q s = true -> runs_below k q' s = true.
Proof.
  induction s as [|c s IH]; intros q q' Hq H; simpl in *; [reflexivity|].
  destruct (is_nl c); [|exact H].
  apply andb_true_iff in H as [H1 H2]. apply Nat.ltb_lt in H1.
  apply andb_true_iff. split; [apply Nat.ltb_lt; lia|]. apply (IH (S q)); [lia | exact H2].
Qed.

Lemma runs_below_tail k q c s : runs_below k q (c :: s) = true -> runs_below k 0 s = true.
Proof.
  simpl. destruct (is_nl c); [|auto].
  intros H. apply andb_true_iff in H as [_ H]. apply (runs_below_mono _ _ (S q)); [lia | exact H].
Qed.

Lemma runs_below_drop_while k p s :
  runs_below k 0 s = true -> runs_below k 0 (drop_while p s) = true.
Proof.
  induction s as [|c s IH]; intros H; simpl; [reflexivity|].
  destruct (p c); [apply IH; eapply runs_below_tail; exact H | exact H].
Qed.

Lemma runs_below_prefix k a :
  forall q b, runs_below k q (a ++ b) = true -> runs_below k q a = true.
Proof.
  induction a as [|c a IH]; intros q b H; simpl in *; [reflexivity|].
  destruct (is_nl c).
  - apply andb_true_iff in H as [H1 H2]. rewrite H1. simpl. eapply IH; exact H2.
  - eapply IH; exact H.
Qed.

Lemma drop_while_suffix p s : exists d, s = d ++ drop_while p s.
Proof.
  induction s as [|c s IH]; simpl; [exists []; reflexivity|].
  destruct (p c); [destruct IH as (d & Hd); exists (c :: d); simpl; congruence|].
  exists []. reflexivity.
Qed.

Lemma drop_while_head p s :
  drop_while p s = [] \/ exists c s', drop_while p s = c :: s' /\ p c = false.
Proof.
  induction s as [|c s IH]; simpl; [auto|].
  destruct (p c) eqn:Hc; [exact IH|]. right; eauto.
Qed.

Lemma strip_prefix s : exists y, drop_while is_space s = py_strip s ++ y.
Proof.
  unfold py_strip. destruct (drop_while_suffix is_space (rev (drop_while is_space s))) as (d & Hd).
  exists (rev d). rewrite <- rev_app_distr, <- Hd, rev_involutive. reflexivity.
Qed.

Lemma runs_below_strip k s : runs_below k 0 s = true -> runs_below k 0 (py_strip s) = true.
Proof.
  intros H. destruct (strip_prefix s) as (y & Hy).
  apply (runs_below_prefix _ _ _ y). rewrite <- Hy. apply runs_below_drop_while, H.
Qed.

(** What [strip] leaves: nothing, or a text whose first and last
    characters are not whitespace. *)
Lemma strip_shape s :
  py_strip s = [] \/
  exists c x' d y, py_strip s = c :: x' /\ is_space c = false /\
                   py_strip s = y ++ [d] /\ is_space d = false.
Proof.
  destruct (drop_while_head is_space (rev (drop_while is_space s))) as [H | (d & r & H & Hd)].
  - left. unfold py_strip. rewrite H. reflexivity.
  - right. assert (Hs : py_strip s = rev r ++ [d]) by (unfold py_strip; rewrite H; reflexivity).
    destruct (strip_prefix s) as (y & Hy).
    destruct (rev r ++ [d]) as [|c0 x'] eqn:E; [destruct (rev r); discriminate|].
    destruct (drop_while_head is_space s) as [H0 | (c & s' & H0 & Hc)].
    + rewrite H0, Hs in Hy. discriminate.
    + rewrite H0, Hs in Hy. simpl in Hy. inversion Hy; subst c0.
      exists c, x', d, (rev r). rewrite Hs, E. auto.
Qed.

Lemma strip_snoc_nl x :
  (x = [] \/ exists c x' d y, x = c :: x' /\ is_space c = false /\ x = y ++ [d] /\ is_space d = false) ->
  py_strip (x ++ [nl]) = x.
Proof.
  intros [-> | (c & x' & d & y & Hx & Hc & Hy & Hd)]; [reflexivity|].
  unfold py_strip.
  assert (E1 : drop_while is_space (x ++ [nl]) = x ++ [nl]) by (rewrite Hx; simpl; rewrite Hc; reflexivity).
  rewrite E1, rev_app_distr. simpl. change (is_space nl) with true.
  rewrite Hy, rev_app_distr. simpl. rewrite Hd. simpl. rewrite rev_involutive. reflexivity.
Qed.

Lemma runs_below_snoc_nl k q y d :
  1 < k -> is_nl d = false -> runs_below k q (y ++ [d]) = true -> runs_below k q (y ++ [d; nl]) = true.
Proof.
  intros Hk Hd. revert q. induction y as [|c y IH]; intros q H; simpl in *.
  - rewrite Hd in *. change (is_nl nl) with true. simpl. apply Nat.ltb_lt in Hk. rewrite Hk. reflexivity.
  - destruct (is_nl c).
    + apply andb_true_iff in H as [H1 H2]. rewrite H1. simpl. apply IH, H2.
    + apply IH, H.
Qed.

Lemma space_of_nl c : is_nl c = true -> is_space c = true.
Proof. intros H. apply is_nl_true in H. subst. reflexivity. Qed.

Lemma not_nl_of_not_space c : is_space c = false -> is_nl c = false.
Proof.
  intros H. destruct (is_nl c) eqn:E; [|reflexivity].
  apply space_of_nl in E. congruence.
Qed.

(** C6.  For every content and every max-consecutive count (any
    non-negative one, so in particular every one >= 1), normalizing twice
    equals normalizing once, and the output is some text [x] followed by one
    newline, where [x] itself does not end with a newline. *)
Theorem normalize_whitespace_idempotent (content : text) (max_consecutive : nat) :
  normalize_whitespace (normalize_whitespace content max_consecutive) max_consecutive
    = normalize_whitespace content max_consecutive
  /\ exists x, normalize_whitespace content max_consecutive = x ++ [nl]
               /\ forall y, x <> y ++ [nl].
Proof.
  set (k := max_consecutive + 2). set (r := max_consecutive + 1).
  set (x := py_strip (collapse_newlines k r 0 content)).
  assert (Hx : runs_below k 0 x = true)
    by (apply runs_below_strip, runs_below_collapse; unfold k, r; lia).
  assert (Hshape := strip_shape (collapse_newlines k r 0 content)). fold x in Hshape.
  assert (Hsh : x = [] \/ exists c x' d y, x = c :: x' /\ is_space c = false /\
                                          x = y ++ [d] /\ is_space d = false).
  { exact Hshape. }
  unfold normalize_whitespace. fold k r. fold x.
  split.
  - assert (Hxn : runs_below k 0 (x ++ [nl]) = true).
    { destruct Hsh as [-> | (c & x' & d & y & _ & _ & Hy & Hd)].
      - simpl. unfold k. replace (1 <? max_consecutive + 2) with true; [reflexivity|].
        symmetry. apply Nat.ltb_lt. lia.
      - rewrite Hy in Hx |- *. rewrite <- app_assoc. simpl.
        apply runs_below_snoc_nl; [unfold k; lia | apply not_nl_of_not_space, Hd | exact Hx]. }
    rewrite collapse_runs_below by (exact Hxn || (unfold k; lia)). simpl.
    rewrite strip_snoc_nl by exact Hsh. reflexivity.
  - exists x. split; [reflexivity|]. intros y Hy.
    destruct Hsh as [Hn | (c & x' & d & y' & _ & _ & Hy' & Hd)].
    + rewrite Hn in Hy. destruct y; discriminate.
    + rewrite Hy' in Hy. apply app_inj_tail in Hy as [_ Hdn]. subst d. discriminate.
Qed.

(** ** C5: front matter *)

Lemma split_join_nl ls :
  Forall no_nl ls -> ls <> [] -> split_nl (join_nl ls) = ls.
Proof.
  induction ls as [|l ls IH]; intros Hf Hn; [congruence|].
  inversion Hf; subst. destruct ls as [|l' ls'].
  - simpl. rewrite <- (app_nil_r l) at 1. rewrite (split_nl_no_nl_app l [] [] [] H1 eq_refl).
    rewrite app_nil_r. reflexivity.
  - change (join_nl (l :: l' :: ls')) with (l ++ nl :: join_nl (l' :: ls')).
    rewrite split_nl_app_nl, IH by (assumption || discriminate).
    rewrite <- (app_nil_r l) at 1. rewrite (split_nl_no_nl_app l [] [] [] H1 eq_refl).
    rewrite app_nil_r. reflexivity.
Qed.

Lemma find_closing_app fm cl rest i :
  Forall (fun l => is_delim l = false) fm -> is_delim cl = true ->
  find_closing (fm ++ cl :: rest) i = Some (i + length fm).
Proof.
  unfold is_delim. revert i. induction fm as [|l fm IH]; intros i Hf Hc; cbn [find_closing app length].
  - rewrite Hc, Nat.add_0_r. reflexivity.
  - inversion Hf; subst. rewrite H1, IH by assumption. f_equal. lia.
Qed.

Lemma find_closing_none ls i :
  Forall (fun l => is_delim l = false) ls -> find_closing ls i = None.
Proof.
  unfold is_delim. revert i. induction ls as [|l ls IH]; intros i Hf; cbn [find_closing]; [reflexivity|].
  inversion Hf; subst. rewrite H1. apply IH; assumption.
Qed.

Lemma starts_with_app p o x : starts_with p o = true -> starts_with p (o ++ x) = true.
Proof.
  revert o. induction p as [|c p IH]; intros o H; [reflexivity|].
  destruct o as [|d o]; [discriminate|]. simpl in *.
  apply andb_true_iff in H as [H1 H2]. rewrite H1. simpl. apply IH, H2.
Qed.

(** C5 (counterexample).  With a blank line after the closing delimiter,
    the remaining content is not the text after the closing delimiter line:
    for ["---\na\n---\n" ++ "\nb"] the text after the closing line is
    ["\nb"], but the returned remainder is ["b"]. *)
Lemma extract_front_matter_strips_blank_lines :
  extract_front_matter (t "---
a
---
" ++ t "
b") <> (Some (t "a"), t "
b").
Proof. vm_compute. discriminate. Qed.

(** C5 (amended).  Front-matter extraction, for any content:
    - content that does not start with ['---'] is returned unchanged with
      no front matter;
    - content whose lines after the first contain no line that strips to
      ['---'] is returned unchanged with no front matter;
    - content that starts with ['---'] (the first line only needs to begin
      with it), whose first later line that strips to ['---'] is [cl], gives
      as front matter the lines strictly between the first line and [cl],
      joined by newlines, and as remaining content the lines after [cl],
      joined by newlines, with leading newlines removed. *)
Theorem extract_front_matter_cases :
  (forall content, starts_with (t "---") content = false ->
     extract_front_matter content = (None, content))
  /\ (forall o ls, Forall no_nl (o :: ls) -> Forall (fun l => is_delim l = false) ls ->
        extract_front_matter (join_nl (o :: ls)) = (None, join_nl (o :: ls)))
  /\ (forall o fm cl rest,
        starts_with (t "---") o = true -> Forall no_nl (o :: fm ++ cl :: rest) ->
        Forall (fun l => is_delim l = false) fm -> is_delim cl = true ->
        extract_front_matter (join_nl (o :: fm ++ cl :: rest))
          = (Some (join_nl fm), lstrip_nl (join_nl rest))).
Proof.
  split; [|split].
  - intros content H. unfold extract_front_matter. rewrite H. reflexivity.
  - intros o ls Hnl Hd. unfold extract_front_matter.
    destruct (negb (starts_with (t "---") (join_nl (o :: ls)))); [reflexivity|].
    rewrite split_join_nl by (assumption || discriminate). simpl tl.
    rewrite find_closing_none by assumption. reflexivity.
  - intros o fm cl rest Ho Hnl Hfm Hcl. unfold extract_front_matter.
    assert (Hs : starts_with (t "---") (join_nl (o :: fm ++ cl :: rest)) = true).
    { destruct (fm ++ cl :: rest) as [|l ls] eqn:E; [destruct fm; discriminate|].
      change (join_nl (o :: l :: ls)) with (o ++ nl :: join_nl (l :: ls)).
      apply starts_with_app, Ho. }
    rewrite Hs. simpl negb. cbv iota.
    rewrite split_join_nl by (assumption || discriminate). simpl tl.
    rewrite find_closing_app by assumption.
    replace (1 + length fm - 1) with (length fm) by lia.
    simpl skipn. rewrite firstn_app, Nat.sub_diag, firstn_all, app_nil_r.
    replace (1 + length fm + 1) with (S (S (length fm))) by lia.
    change (skipn (S (S (length fm))) (o :: fm ++ cl :: rest))
      with (skipn (S (length fm)) (fm ++ cl :: rest)).
    rewrite skipn_app, skipn_all2 by lia.
    assert (E : forall n, n = 1 -> skipn n (cl :: rest) = rest) by (intros n ->; reflexivity).
    rewrite E by lia. reflexivity.
Qed.

(** A use of [extract_front_matter_cases] on a document with a title
    block. *)
Lemma extract_front_matter_cases_witness :
  extract_front_matter (join_nl [t "---"; t "title: T"; t "---"; []; t "# H"])
    = (Some (t "title: T"), t "# H").
Proof.
  apply (proj2 (proj2 extract_front_matter_cases) (t "---") [t "title: T"] (t "---") [[]; t "# H"]).
  - reflexivity.
  - repeat constructor.
  - repeat constructor.
  - reflexivity.
Defined.

(** ** C10: statistics *)

Lemma fold_min_spec l : forall x,
  (fold_left Z.min l x <= x)%Z /\ (forall y, In y l -> (fold_left Z.min l x <= y)%Z)
  /\ In (fold_left Z.min l x) (x :: l).
Proof.
  induction l as [|a l IH]; intros x; simpl.
  - split; [lia|]. split; [tauto | auto].
  - destruct (IH (Z.min x a)) as (H1 & H2 & H3). split; [lia|]. split.
    + intros y [<- | Hy]; [lia | apply H2, Hy].
    + destruct H3 as [H3 | H3]; [|auto]. rewrite <- H3.
      destruct (Z.min_spec x a) as [[_ ->] | [_ ->]]; auto.
Qed.

Lemma fold_max_spec l : forall x,
  (x <= fold_left Z.max l x)%Z /\ (forall y, In y l -> (y <= fold_left Z.max l x)%Z)
  /\ In (fold_left Z.max l x) (x :: l).
Proof.
  induction l as [|a l IH]; intros x; simpl.
  - split; [lia|]. split; [tauto | auto].
  - destruct (IH (Z.max x a)) as (H1 & H2 & H3). split; [lia|]. split.
    + intros y [<- | Hy]; [lia | apply H2, Hy].
    + destruct H3 as [H3 | H3]; [|auto]. rewrite <- H3.
      destruct (Z.max_spec x a) as [[_ ->] | [_ ->]]; auto.
Qed.

Lemma sum_sizes files : fold_right (fun f acc => fi_size f + acc) 0 files = list_sum (map fi_size files).
Proof. induction files; simpl; auto. Qed.

(** C10.  [get_statistics] never raises: on the empty list it gives count
    0, sizes 0 and no timestamps; on a non-empty list it gives the length,
    the sum of the sizes, that sum integer-divided by the length, and as
    oldest and newest the least and greatest modification times of the
    list (so oldest <= newest). *)
Theorem get_statistics_total (files : list FileInfo) :
  get_statistics [] = Some (mkStatistics 0 0 0 None None) /\
  (files <> [] ->
   exists oldest newest,
     get_statistics files =
       Some (mkStatistics (length files) (list_sum (map fi_size files))
               (list_sum (map fi_size files) / length files) (Some oldest) (Some newest))
     /\ In oldest (map fi_modified files) /\ In newest (map fi_modified files)
     /\ (forall f, In f files -> (oldest <= fi_modified f <= newest)%Z)
     /\ (oldest <= newest)%Z).
Proof.
  split; [reflexivity|]. intros Hne.
  destruct files as [|f rest]; [congruence|].
  destruct (fold_min_spec (map fi_modified rest) (fi_modified f)) as (Hm1 & Hm2 & Hm3).
  destruct (fold_max_spec (map fi_modified rest) (fi_modified f)) as (HM1 & HM2 & HM3).
  exists (fold_left Z.min (map fi_modified rest) (fi_modified f)),
         (fold_left Z.max (map fi_modified rest) (fi_modified f)).
  split.
  - unfold get_statistics. rewrite sum_sizes. reflexivity.
  - split; [exact Hm3|]. split; [exact HM3|]. split; [|lia].
    intros g [<- | Hg]; [lia|].
    split; [apply Hm2 | apply HM2]; apply in_map, Hg.
Qed.

(** A use of [get_statistics_total] on two files. *)
Lemma get_statistics_total_witness :
  exists oldest newest,
    get_statistics ex_files = Some (mkStatistics 2 30 15 (Some oldest) (Some newest))
    /\ (oldest <= newest)%Z.
Proof.
  destruct (proj2 (get_statistics_total ex_files) ltac:(discriminate))
    as (o & n & H & _ & _ & _ & Hle).
  exists o, n. split; [exact H | exact Hle].
Defined.

(** ** C7: duplicate detection *)

(** C7.  With duplicate detection disabled, [detect_duplicates] returns no
    group; whatever it returns, every group has at least two members; and
    with detection enabled, two files with the same bytes give exactly one
    group, holding the two files in order. *)
Theorem detect_duplicates_groups (cfg : AnalyzerConfig) (md5 : text -> string)
  (fs : list entry) (files : list FileInfo) :
  (cfg_detect_duplicates cfg = false -> detect_duplicates cfg md5 fs files = Some [])
  /\ (forall groups h g, detect_duplicates cfg md5 fs files = Some groups ->
        In (h, g) groups -> 2 <= length g)
  /\ (forall f1 f2 n1 n2 sz1 sz2 mt1 mt2 content,
        cfg_detect_duplicates cfg = true ->
        lookup_in fs (fi_path f1) = Some (FileE n1 sz1 mt1 content) ->
        lookup_in fs (fi_path f2) = Some (FileE n2 sz2 mt2 content) ->
        exists h g, detect_duplicates cfg md5 fs [f1; f2] = Some [(h, g)]
                    /\ map fi_path g = [fi_path f1; fi_path f2]).
Proof.
  split; [|split].
  - intros H. unfold detect_duplicates. rewrite H. reflexivity.
  - intros groups h g H Hin. unfold detect_duplicates in H.
    destruct (cfg_detect_duplicates cfg); simpl in H.
    + destruct (hash_files md5 fs files []) as [m|]; [|discriminate].
      inversion H; subst groups. apply filter_In in Hin as [_ Hl].
      apply Nat.ltb_lt in Hl. lia.
    + inversion H; subst groups. destruct Hin.
  - intros f1 f2 n1 n2 sz1 sz2 mt1 mt2 content Hon H1 H2.
    unfold detect_duplicates. rewrite Hon. simpl negb. cbv iota.
    simpl hash_files. unfold calculate_file_hash. rewrite H1, H2.
    simpl bucket_add. rewrite String.eqb_refl.
    eexists. eexists. split; reflexivity.
Qed.

(** A use of [detect_duplicates_groups] on [a.md] and [notes/b.md], which
    have the same content. *)
Lemma detect_duplicates_groups_witness :
  exists h g,
    detect_duplicates default_analyzer_config string_of_list_ascii ex_fs
      [analyze_file ["a.md"%string] 3 100 (t "# A");
       analyze_file ["notes"; "b.md"]%string 3 200 (t "# A")] = Some [(h, g)]
    /\ length g = 2.
Proof.
  destruct (proj2 (proj2 (detect_duplicates_groups default_analyzer_config string_of_list_ascii ex_fs []))
              (analyze_file ["a.md"%string] 3 100 (t "# A"))
              (analyze_file ["notes"; "b.md"]%string 3 200 (t "# A"))
              "a.md"%string "b.md"%string 3 3 100%Z 200%Z (t "# A") eq_refl eq_refl eq_refl)
    as (h & g & H & Hp).
  exists h, g. split; [exact H|].
  rewrite <- (length_map fi_path), Hp. reflexivity.
Defined.

(** ** C9: write failure *)

(** C9.  In every run that reaches the write phase (the processing loop
    finished, no dry run) and whose output write raises [e], [merge]
    returns [success = false], no output path, [files_merged = 0] and the
    single error ["Merge failed: " ++ e]. *)
Theorem merge_write_failure_fatal (lib : PyLib) (cfg : MergeConfig) (env : MergeEnv)
  (files : list FileInfo) (out : path) docs errs bytes (e : text) :
  phase1 env (length files) files 1 [] [] 0 = P1Done docs errs bytes ->
  env_write env (write_output_text lib cfg docs) = Some e ->
  success (merge lib cfg env files out false) = false
  /\ errors (merge lib cfg env files out false) = [t "Merge failed: " ++ e]
  /\ files_merged (merge lib cfg env files out false) = 0
  /\ output_path (merge lib cfg env files out false) = None.
Proof.
  intros Hp Hw. unfold merge. rewrite Hp. simpl. rewrite Hw. simpl.
  repeat split.
Qed.

(** A use of [merge_write_failure_fatal]: two readable files, and the disk
    is full when the output is written. *)
Lemma merge_write_failure_fatal_witness :
  success (merge ex_lib default_config ex_env_write_fails ex_files ["out.md"%string] false) = false
  /\ length (errors (merge ex_lib default_config ex_env_write_fails ex_files ["out.md"%string] false)) = 1
  /\ files_merged (merge ex_lib default_config ex_env_write_fails ex_files ["out.md"%string] false) = 0.
Proof.
  destruct (merge_write_failure_fatal ex_lib default_config ex_env_write_fails ex_files ["out.md"%string]
              [ex_doc (ex_file "a.md" 10 100) 1 2; ex_doc (ex_file "b.md" 20 200) 2 2] [] 30
              (t "[Errno 28] No space left on device") eq_refl eq_refl)
    as (H1 & H2 & H3 & _).
  split; [exact H1|]. split; [rewrite H2; reflexivity | exact H3].
Defined.

(** ** C4: merging no file *)

(** C4 (counterexample).  With the default configuration (TOC enabled, at
    the top), merging the empty list succeeds with no file merged, but the
    text written to the output is the TOC heading block. *)
Lemma merge_empty_writes_toc_heading :
  success (merge ex_lib default_config ex_env_ok [] ["out.md"%string] false) = true
  /\ files_merged (merge ex_lib default_config ex_env_ok [] ["out.md"%string] false) = 0
  /\ merge_written_text ex_lib default_config ex_env_ok [] false = Some (t "# Table of Contents


---
").
Proof. vm_compute. repeat split. Qed.

(** C4 (amended).  Merging the empty list, when the write does not raise
    (or in a dry run), succeeds with [files_merged = 0] and no error; the
    text written is the TOC block ["# Table of Contents\n\n\n---\n"] when the
    TOC is enabled at the top, that block preceded by two newlines when it
    is enabled at the bottom, and empty otherwise. *)
Theorem merge_empty_list (lib : PyLib) (cfg : MergeConfig) (env : MergeEnv) (out : path)
  (dry_run : bool) :
  (dry_run = true \/ env_write env (write_output_text lib cfg []) = None) ->
  success (merge lib cfg env [] out dry_run) = true
  /\ files_merged (merge lib cfg env [] out dry_run) = 0
  /\ errors (merge lib cfg env [] out dry_run) = []
  /\ merge_written_text lib cfg env [] dry_run =
       (if dry_run then None
        else Some ((if generate_toc cfg && String.eqb (toc_position cfg) "top" then empty_toc_text else [])
                   ++ (if generate_toc cfg && String.eqb (toc_position cfg) "bottom"
                       then [nl; nl] ++ empty_toc_text else []))).
Proof.
  intros Hw. unfold merge, merge_written_text. simpl phase1.
  assert (Htext : write_output_text lib cfg [] =
            (if generate_toc cfg && String.eqb (toc_position cfg) "top" then empty_toc_text else [])
            ++ (if generate_toc cfg && String.eqb (toc_position cfg) "bottom"
                then [nl; nl] ++ empty_toc_text else [])).
  { unfold write_output_text, toc_generate. simpl document_blocks.
    destruct (generate_toc cfg); reflexivity. }
  destruct dry_run.
  - repeat split.
  - destruct Hw as [Hw | Hw]; [discriminate|]. rewrite Hw, Htext. repeat split.
Qed.

(** A use of [merge_empty_list] with the default configuration. *)
Lemma merge_empty_list_witness :
  success (merge ex_lib default_config ex_env_ok [] ["out.md"%string] false) = true
  /\ merge_written_text ex_lib default_config ex_env_ok [] false = Some empty_toc_text.
Proof.
  destruct (merge_empty_list ex_lib default_config ex_env_ok ["out.md"%string] false
              (or_intror eq_refl)) as (H1 & _ & _ & H4).
  split; [exact H1|]. rewrite H4. reflexivity.
Defined.

(** ** C2 and C8: cancellation and per-file errors *)

(** The processing loop of a run in which no cancellation is observed and
    no progress callback raises: every file is processed, the documents
    that could be processed are kept in order, and one error per failed
    file is appended. *)
Lemma phase1_best_effort env n files :
  (forall j, env_cancelled env j = false) -> (forall j, env_callback env j = None) ->
  forall i docs errs bytes, exists errs' bytes',
    phase1 env n files i docs errs bytes = P1Done (docs ++ ok_docs env n files i) (errs ++ errs') bytes'
    /\ length errs' = failed_count env n files i.
Proof.
  intros Hc Hcb. induction files as [|f rest IH]; intros i docs errs bytes; simpl.
  - exists [], bytes. rewrite !app_nil_r. auto.
  - rewrite Hc, Hcb. destruct (env_process env f i n) as [d|e].
    + destruct (IH (S i) (docs ++ [d]) errs (bytes + fi_size f)) as (errs' & b' & H & Hl).
      exists errs', b'. rewrite H, <- app_assoc. auto.
    + match goal with |- context [phase1 env n rest (S i) docs ?es bytes] =>
        destruct (IH (S i) docs es bytes) as (errs' & b' & H & Hl) end.
      eexists. exists b'. rewrite H, <- app_assoc. split; [reflexivity|]. simpl. lia.
Qed.

(** Best-effort result of a run in which no cancellation is observed, no
    progress callback raises and the write (if any) succeeds: the result
    counts the documents that could be processed, holds one error per failed
    file, and is successful exactly when no file failed. *)
Lemma merge_best_effort lib cfg env files out dry_run :
  (forall j, env_cancelled env j = false) -> (forall j, env_callback env j = None) ->
  (forall txt, env_write env txt = None) ->
  files_merged (merge lib cfg env files out dry_run) = length (ok_docs env (length files) files 1)
  /\ length (errors (merge lib cfg env files out dry_run)) = failed_count env (length files) files 1
  /\ success (merge lib cfg env files out dry_run) = (failed_count env (length files) files 1 =? 0).
Proof.
  intros Hc Hcb Hw. unfold merge.
  destruct (phase1_best_effort env (length files) files Hc Hcb 1 [] [] 0) as (errs' & b' & -> & Hl).
  simpl. destruct dry_run; [|rewrite Hw]; simpl; rewrite Hl; auto.
Qed.

(** C2 (code defect).  The first of two files cannot be read and
    cancellation is observed before the second: no document was merged, yet
    the result reports one merged file. *)
Lemma merge_cancel_counts_failed_file :
  env_process ex_env_cancel (ex_file "a.md" 10 100) 1 2 = inr (t "[Errno 13] Permission denied")
  /\ env_cancelled ex_env_cancel 2 = true
  /\ success (merge ex_lib default_config ex_env_cancel ex_files ["out.md"%string] false) = false
  /\ files_merged (merge ex_lib default_config ex_env_cancel ex_files ["out.md"%string] false) = 1.
Proof. vm_compute. repeat split. Qed.

(** C8 (code defect, same run as for C2).  The error recorded for the file
    that failed is not in the result, and the result counts that file as
    merged. *)
Lemma merge_cancel_drops_file_error :
  errors (merge ex_lib default_config ex_env_cancel ex_files ["out.md"%string] false)
    = [t "Merge cancelled by user"]
  /\ files_merged (merge ex_lib default_config ex_env_cancel ex_files ["out.md"%string] false) = 1
  /\ ok_docs ex_env_cancel 2 [ex_file "a.md" 10 100] 1 = [].
Proof. vm_compute. repeat split. Qed.

(** ** C3: discovery does not de-duplicate *)

Lemma insert_by_perm {A} (lt : A -> A -> bool) x l : Permutation (insert_by lt x l) (x :: l).
Proof.
  induction l as [|y l IH]; simpl; [reflexivity|].
  destruct (lt x y); [reflexivity|].
  rewrite IH. apply perm_swap.
Qed.

Lemma stable_sort_perm {A} (lt : A -> A -> bool) l : Permutation (stable_sort lt l) l.
Proof.
  unfold stable_sort.
  assert (H : forall l acc, Permutation (fold_left (fun acc x => insert_by lt x acc) l acc) (acc ++ l)).
  { induction l0 as [|x l0 IH]; intros acc; simpl; [rewrite app_nil_r; reflexivity|].
    rewrite IH, insert_by_perm. apply Permutation_middle. }
  apply H.
Qed.

Lemma sort_files_perm cfg files : Permutation (sort_files cfg files) files.
Proof.
  unfold sort_files, sort_by_key.
  repeat match goal with |- context [if ?b then _ else _] => destruct b end;
  (apply stable_sort_perm || reflexivity).
Qed.

(** C3 (counterexample).  [a.md] named twice gives two records with the
    same path. *)
Lemma discover_files_keeps_repeated_path :
  ~ NoDup (map fi_path (discover_files default_analyzer_config ex_fs [["a.md"%string]; ["a.md"%string]])).
Proof.
  assert (E : map fi_path (discover_files default_analyzer_config ex_fs [["a.md"%string]; ["a.md"%string]])
              = [["a.md"%string]; ["a.md"%string]]) by (vm_compute; reflexivity).
  rewrite E. intros H. inversion H as [|x l Hx _]; subst. apply Hx. left. reflexivity.
Qed.

(** C3 (amended).  Discovery removes no record: its result is the
    configured reordering of the records found for each input path in turn,
    so a file reached twice appears twice. *)
Theorem discover_files_no_dedup (cfg : AnalyzerConfig) (fs : list entry) (paths : list path) :
  Permutation (discover_files cfg fs paths) (flat_map (discover_path cfg fs) paths).
Proof. unfold discover_files. apply sort_files_perm. Qed.

(** * Further properties of the helpers, the analyzer, the processor, the
    engine and the GUI *)

(** Case analysis on the 256 characters. *)
Ltac ascii_cases c :=
  destruct c as [[] [] [] [] [] [] [] []]; vm_compute; try reflexivity; try (intros; congruence).

Lemma space_not_cr c : is_space c = false -> is_cr c = false.
Proof. ascii_cases c. Qed.

Lemma word_not_space c : is_word c = true -> is_space c = false.
Proof. ascii_cases c. Qed.

Lemma anchor_char_not_space c : anchor_char c = true -> is_space c = false.
Proof. ascii_cases c. Qed.

Lemma anchor_char_kept c :
  anchor_char c = true -> (is_word c || is_space c || Ascii.eqb c "-"%char) = true.
Proof. ascii_cases c. Qed.

Lemma anchor_char_not_upper c : anchor_char c = true -> is_upper c = false.
Proof. ascii_cases c. Qed.

Lemma lower_c_not_upper c : is_upper (lower_c c) = false.
Proof. ascii_cases c. Qed.

Lemma lower_c_id c : is_upper c = false -> lower_c c = c.
Proof. ascii_cases c. Qed.

Lemma anchor_char_of c :
  (is_word c || is_space c || Ascii.eqb c "-"%char) = true -> is_space c = false ->
  is_upper c = false -> anchor_char c = true.
Proof. ascii_cases c. Qed.

(** ** Line endings *)

Lemma replace_cr_no_cr s : no_cr (replace_cr s) = true.
Proof.
  unfold no_cr, replace_cr. induction s as [|c s IH]; [reflexivity|].
  cbn [map forallb]. rewrite IH, andb_true_r. destruct (is_cr c) eqn:H; [reflexivity|]. rewrite H. reflexivity.
Qed.

Lemma replace_cr_id s : no_cr s = true -> replace_cr s = s.
Proof.
  unfold no_cr, replace_cr. induction s as [|c s IH]; [reflexivity|].
  cbn [map forallb]. intros H. apply andb_prop in H as [H1 H2].
  destruct (is_cr c); [discriminate|]. rewrite IH by exact H2. reflexivity.
Qed.

Lemma replace_crlf_id s : no_cr s = true -> replace_crlf s = s.
Proof.
  unfold no_cr. induction s as [|c s IH]; [reflexivity|].
  cbn [forallb replace_crlf]. intros H. apply andb_prop in H as [H1 H2].
  destruct (is_cr c); [discriminate|]. rewrite IH by exact H2. reflexivity.
Qed.

Lemma replace_crlf_lf_crlf y : no_cr y = true -> replace_crlf (replace_lf_crlf y) = y.
Proof.
  unfold no_cr, replace_lf_crlf. induction y as [|c y IH]; [reflexivity|].
  cbn [forallb flat_map]. intros H. apply andb_prop in H as [H1 H2].
  destruct (is_nl c) eqn:Hn.
  - apply is_nl_true in Hn. subst c. simpl. rewrite IH by exact H2. reflexivity.
  - simpl. destruct (is_cr c); [discriminate|]. rewrite IH by exact H2. reflexivity.
Qed.

Lemma crlf_only_lf_crlf y : no_cr y = true -> crlf_only (replace_lf_crlf y) = true.
Proof.
  unfold no_cr, replace_lf_crlf. induction y as [|c y IH]; [reflexivity|].
  cbn [forallb flat_map]. intros H. apply andb_prop in H as [H1 H2].
  destruct (is_nl c) eqn:Hn.
  - simpl. apply IH, H2.
  - simpl. destruct (is_cr c); [discriminate|]. rewrite Hn. simpl. apply IH, H2.
Qed.

Lemma normalize_line_endings_base x s1 :
  replace_cr (replace_crlf (normalize_line_endings x s1)) = replace_cr (replace_crlf x).
Proof.
  unfold normalize_line_endings. cbv zeta.
  pose proof (replace_cr_no_cr (replace_crlf x)) as Hy.
  destruct (text_eqb (lower (t s1)) (t "crlf")).
  - rewrite replace_crlf_lf_crlf by exact Hy. apply replace_cr_id, Hy.
  - rewrite (replace_crlf_id _ Hy). apply replace_cr_id, Hy.
Qed.

Lemma normalize_line_endings_shape x style :
  if text_eqb (lower (t style)) (t "crlf")
  then crlf_only (normalize_line_endings x style) = true
  else no_cr (normalize_line_endings x style) = true.
Proof.
  unfold normalize_line_endings. cbv zeta.
  destruct (text_eqb (lower (t style)) (t "crlf")).
  - apply crlf_only_lf_crlf, replace_cr_no_cr.
  - apply replace_cr_no_cr.
Qed.

(** Line-ending normalization forgets the style applied before: normalizing
    an already normalized text gives what normalizing the original gives,
    whatever the two styles. *)
Theorem normalize_line_endings_last_wins (x : text) (style1 style2 : string) :
  normalize_line_endings (normalize_line_endings x style1) style2 = normalize_line_endings x style2.
Proof.
  unfold normalize_line_endings at 1 3. cbv zeta.
  rewrite normalize_line_endings_base. reflexivity.
Qed.

(** With the style ["crlf"] (any case) every carriage return of the output
    is followed by a line feed and every line feed is preceded by one; with
    any other style the output has no carriage return. *)
Theorem normalize_line_endings_style (x : text) (style : string) :
  if text_eqb (lower (t style)) (t "crlf")
  then crlf_only (normalize_line_endings x style) = true
  else no_cr (normalize_line_endings x style) = true.
Proof. apply normalize_line_endings_shape. Qed.

(** ** Anchors *)

Lemma hyphenate_chars b s c :
  In c (hyphenate b s) -> c = "-"%char \/ (In c s /\ is_space c = false).
Proof.
  revert b; induction s as [|d s IH]; intros b H; simpl in H; [contradiction|].
  destruct (is_space d) eqn:Hd.
  - destruct b; [destruct (IH true H) as [->|[H1 H2]]; [auto|right; split; [right|]; auto]|].
    destruct H as [<-|H]; [auto|]. destruct (IH true H) as [->|[H1 H2]]; [auto|right; split; [right|]; auto].
  - destruct H as [<-|H]; [right; split; [left|]; auto|].
    destruct (IH false H) as [->|[H1 H2]]; [auto|right; split; [right|]; auto].
Qed.

Lemma hyphenate_id b s : forallb (fun c => negb (is_space c)) s = true -> hyphenate b s = s.
Proof.
  revert b; induction s as [|c s IH]; intros b H; [reflexivity|].
  simpl in H. apply andb_prop in H as [H1 H2]. simpl.
  destruct (is_space c); [discriminate|]. rewrite IH by exact H2. reflexivity.
Qed.

Lemma generate_anchor_chars x : forallb anchor_char (generate_anchor x) = true.
Proof.
  apply forallb_forall. intros c Hc. unfold generate_anchor in Hc.
  destruct (hyphenate_chars _ _ _ Hc) as [->|[H1 H2]]; [reflexivity|].
  apply filter_In in H1 as [H1 H3]. apply anchor_char_of; auto.
  unfold lower in H1. apply in_map_iff in H1 as (c0 & <- & _). apply lower_c_not_upper.
Qed.

(** [generate_anchor] outputs only lower-case letters, digits, ['_'] and
    ['-'], and applying it to its own output changes nothing. *)
Theorem generate_anchor_idempotent (x : text) :
  forallb anchor_char (generate_anchor x) = true /\
  generate_anchor (generate_anchor x) = generate_anchor x.
Proof.
  pose proof (generate_anchor_chars x) as H. split; [exact H|].
  set (a := generate_anchor x) in *.
  assert (Hl : lower a = a).
  { unfold lower. rewrite <- (map_id a) at 2. apply map_ext_in. intros c Hc.
    apply lower_c_id, anchor_char_not_upper. rewrite forallb_forall in H. apply H, Hc. }
  unfold generate_anchor at 1. rewrite Hl.
  rewrite (forallb_filter_id _ a).
  2: { rewrite forallb_forall in *. intros c Hc. apply anchor_char_kept, H, Hc. }
  apply hyphenate_id. rewrite forallb_forall in *. intros c Hc.
  rewrite (anchor_char_not_space c (H c Hc)). reflexivity.
Qed.

(** ** Header extraction *)

Lemma drop_while_id p s :
  (s = [] \/ exists c s', s = c :: s' /\ p c = false) -> drop_while p s = s.
Proof. intros [->|(c & s' & -> & Hc)]; simpl; [reflexivity|]. rewrite Hc. reflexivity. Qed.

Lemma py_strip_idem s : py_strip (py_strip s) = py_strip s.
Proof.
  unfold py_strip at 2 3.
  set (u := drop_while is_space s). set (v := drop_while is_space (rev u)).
  assert (Hv : drop_while is_space (rev v) = rev v).
  { destruct (drop_while_suffix is_space (rev u)) as (d & Hd). fold v in Hd.
    assert (Hu : u = rev v ++ rev d) by (rewrite <- rev_app_distr, <- Hd, rev_involutive; reflexivity).
    destruct (rev v) as [|c w] eqn:Erv; [reflexivity|]. apply drop_while_id. right.
    exists c, w. split; [reflexivity|].
    destruct (drop_while_head is_space s) as [E|(c' & s' & E & Hc')]; fold u in E.
    - rewrite Hu in E. discriminate.
    - rewrite Hu in E. simpl in E. inversion E; subst. exact Hc'. }
  unfold py_strip. rewrite Hv, rev_involutive.
  rewrite (drop_while_id is_space v); [reflexivity|].
  destruct (drop_while_head is_space (rev u)) as [E|(c & s' & E & Hc)]; fold v in E; [left; exact E|].
  right; eauto.
Qed.

Lemma py_strip_infix s : exists a b, s = a ++ py_strip s ++ b.
Proof.
  destruct (drop_while_suffix is_space s) as (a & Ha).
  destruct (strip_prefix s) as (b & Hb). exists a, b. rewrite <- Hb. exact Ha.
Qed.

Lemma no_nl_app a b : no_nl (a ++ b) <-> no_nl a /\ no_nl b.
Proof. unfold no_nl. rewrite forallb_app, andb_true_iff. tauto. Qed.

Lemma no_nl_strip s : no_nl s -> no_nl (py_strip s).
Proof.
  destruct (py_strip_infix s) as (a & b & E). rewrite E at 1.
  rewrite !no_nl_app. tauto.
Qed.

Lemma header_at_spec s h g2 rest :
  header_at s = Some (h, g2, rest) -> 1 <= h <= 6 /\ no_nl g2 /\ length rest < length s.
Proof.
  unfold header_at.
  destruct (span is_hash s) as [hs r] eqn:E1. apply span_spec in E1 as (E1 & _).
  destruct ((1 <=? length hs) && (length hs <=? 6)) eqn:E2; [|discriminate].
  apply andb_prop in E2 as [E2 E3]. apply Nat.leb_le in E2, E3.
  destruct (span is_space r) as [ws r'] eqn:E4. apply span_spec in E4 as (E4 & _).
  destruct ws as [|w0 ws']; [discriminate|].
  destruct r' as [|c r''].
  - destruct (span is_nl (rev ws')) as [nls rback] eqn:E5.
    apply span_spec in E5 as (E5 & _ & E6).
    destruct rback as [|c0 rb]; [discriminate|].
    intros H; inversion H; subst h g2 rest.
    destruct E6 as [E6|(c1 & b' & E6 & Hc1)]; [discriminate|]. inversion E6; subst c1 b'.
    split; [lia|]. split; [unfold no_nl; simpl; rewrite Hc1; reflexivity|].
    assert (Hl : length (rev ws') = length nls + S (length rb)) by (rewrite E5, length_app; reflexivity).
    rewrite length_rev in Hl. subst s r. rewrite !length_app. simpl. lia.
  - destruct (span (fun c => negb (is_nl c)) (c :: r'')) as [g rest'] eqn:E5.
    apply span_spec in E5 as (E5 & E6 & _).
    intros H; inversion H; subst h g2 rest.
    split; [lia|]. split; [exact E6|].
    subst s r. rewrite E5. rewrite !length_app. simpl. rewrite ?length_app. lia.
Qed.


Lemma scan_headers_spec fuel : forall bol s,
  Forall (fun '(h, g) => 1 <= h <= 6 /\ no_nl g) (scan_headers fuel bol s).
Proof.
  induction fuel as [|fuel IH]; intros bol s; [constructor|].
  destruct s as [|c s']; simpl; [constructor|].
  destruct (if bol then header_at (c :: s') else None) as [[[h g2] rest]|] eqn:E; [|apply IH].
  destruct bol; [|discriminate].
  apply header_at_spec in E as (E1 & E2 & _). constructor; [auto|apply IH].
Qed.

Lemma extract_headers_forall content d :
  Forall (fun '(h, txt) => 1 <= h <= 6 /\ (Z.of_nat h <= d)%Z /\ no_nl txt /\ py_strip txt = txt)
    (extract_headers content d).
Proof.
  apply Forall_forall. intros [h txt] Hin. unfold extract_headers in Hin.
  apply in_map_iff in Hin as ([h' g] & E & Hin). inversion E; subst h' txt.
  apply filter_In in Hin as [Hin Hd]. apply Z.leb_le in Hd.
  pose proof (scan_headers_spec (S (length content)) true content) as HF.
  rewrite Forall_forall in HF. specialize (HF _ Hin). simpl in HF.
  destruct HF as [H1 H2]. repeat split; try lia.
  - apply no_nl_strip, H2.
  - apply py_strip_idem.
Qed.

(** Every header [extract_headers] returns has a level between 1 and 6 and
    at most [max_depth], and a text on one line with no whitespace at
    either end. *)
Theorem extract_headers_bounds (content : text) (max_depth : Z) :
  Forall (fun '(h, txt) => 1 <= h <= 6 /\ (Z.of_nat h <= max_depth)%Z /\ no_nl txt /\ py_strip txt = txt)
    (extract_headers content max_depth).
Proof. apply extract_headers_forall. Qed.




(** ** [process_document] *)

Lemma replace_crlf_app_c n : forall y c z, length y <= n -> is_cr c = false -> is_nl c = false ->
  replace_crlf (y ++ c :: z) = replace_crlf y ++ c :: replace_crlf z.
Proof.
  induction n as [|n IH]; intros y c z Hl Hcr Hnl.
  - destruct y; [|simpl in Hl; lia]. simpl. rewrite Hcr. reflexivity.
  - destruct y as [|a y']; [simpl; rewrite Hcr; reflexivity|].
    simpl in Hl. cbn [app replace_crlf].
    destruct (is_cr a) eqn:Ha.
    + destruct y' as [|b y'']; cbn [app].
      * rewrite Hnl. cbn [replace_crlf]. rewrite Hcr. reflexivity.
      * destruct (is_nl b) eqn:Hb.
        -- rewrite IH by (simpl in Hl; lia || assumption). reflexivity.
        -- change (b :: y'' ++ c :: z) with ((b :: y'') ++ c :: z).
           rewrite IH by (lia || assumption). reflexivity.
    + rewrite IH by (lia || assumption). reflexivity.
Qed.

Lemma normalize_line_endings_strip_nl s style :
  text_eqb (lower (t style)) (t "crlf") = false ->
  exists x, normalize_line_endings (py_strip s ++ [nl]) style = x ++ [nl] /\
            (x = [] \/ exists y d, x = y ++ [d] /\ is_space d = false).
Proof.
  intros Hs. unfold normalize_line_endings. cbv zeta. rewrite Hs.
  destruct (strip_shape s) as [E|(c & x' & d & y & _ & _ & E2 & Hd)].
  - rewrite E. exists []. split; [reflexivity|left; reflexivity].
  - rewrite E2, <- app_assoc. cbn [app].
    rewrite (replace_crlf_app_c (length y) y d [nl]);
      [|lia|apply space_not_cr, Hd|apply not_nl_of_not_space, Hd].
    unfold replace_cr. rewrite map_app. cbn [replace_crlf map].
    rewrite (space_not_cr d Hd).
    exists (map (fun c0 => if is_cr c0 then nl else c0) (replace_crlf y) ++ [d]).
    split; [rewrite <- app_assoc; reflexivity|right; eauto].
Qed.

(** What [process_document] produces: every extracted header has a level
    between 1 and 6 and at most [toc_depth]; unless the line-ending style is
    ["crlf"], the processed content has no carriage return and, when
    whitespace normalization is on, ends with exactly one newline, preceded
    by a non-whitespace character (or is that newline alone). *)
Theorem process_document_output (cfg : MergeConfig) (pcfg : ProcessConfig) (filepath : path)
  (content : text) (index total_count st_size : nat) (st_mtime : Z) :
  let doc := process_document cfg pcfg filepath content index total_count st_size st_mtime in
  Forall (fun '(h, _) => 1 <= h <= 6 /\ (Z.of_nat h <= toc_depth cfg)%Z) (headers doc) /\
  (text_eqb (lower (t (line_ending pcfg))) (t "crlf") = false ->
   no_cr (processed_content doc) = true /\
   (normalize_ws pcfg = true ->
    exists x, processed_content doc = x ++ [nl] /\
              (x = [] \/ exists y d, x = y ++ [d] /\ is_space d = false))).
Proof.
  intros doc. unfold doc, process_document.
  destruct (if strip_front_matter pcfg then extract_front_matter content else (None, content))
    as [fm c1].
  cbn [headers processed_content]. split.
  - eapply Forall_impl; [|apply extract_headers_forall].
    intros [h txt]. tauto.
  - intros Hs. split.
    + pose proof (normalize_line_endings_shape
        (if normalize_ws pcfg
         then normalize_whitespace
                (if negb (adjust_header_level pcfg =? 0)%Z
                 then adjust_header_levels c1 (adjust_header_level pcfg) else c1)
                (max_consecutive_blanks pcfg)
         else if negb (adjust_header_level pcfg =? 0)%Z
              then adjust_header_levels c1 (adjust_header_level pcfg) else c1)
        (line_ending pcfg)) as H.
      rewrite Hs in H. exact H.
    + intros Hn. rewrite Hn. unfold normalize_whitespace.
      apply normalize_line_endings_strip_nl, Hs.
Qed.

(** A use of [process_document_output] with the default configuration. *)
Lemma process_document_output_witness :
  no_cr (processed_content (process_document default_config default_process_config ["a.md"%string]
           (t "# A") 1 1 3 0)) = true /\
  exists x, processed_content (process_document default_config default_process_config ["a.md"%string]
              (t "# A") 1 1 3 0) = x ++ [nl].
Proof.
  destruct (process_document_output default_config default_process_config ["a.md"%string]
              (t "# A") 1 1 3 0) as [_ H].
  destruct (H eq_refl) as [H1 H2]. split; [exact H1|].
  destruct (H2 eq_refl) as (x & Hx & _). exists x. exact Hx.
Defined.

(** ** Sorting: [insert_by], [stable_sort], [sort_files], [extract_keywords] *)

Lemma text_eqb_eq a b : text_eqb a b = true <-> a = b.
Proof.
  revert b; induction a as [|c a IH]; intros [|d b]; simpl; try (split; congruence).
  rewrite andb_true_iff, Ascii.eqb_eq, IH. split; [intros [-> ->]; reflexivity|].
  intros E; injection E; auto.
Qed.

Lemma nat_of_ascii_inj c d : nat_of_ascii c = nat_of_ascii d -> c = d.
Proof.
  intros E. rewrite <- (ascii_nat_embedding c), <- (ascii_nat_embedding d), E. reflexivity.
Qed.

Lemma text_ltb_asym a b : text_ltb a b = true -> text_ltb b a = false.
Proof.
  revert b; induction a as [|c a IH]; intros [|d b]; simpl; try congruence.
  destruct (nat_of_ascii c <? nat_of_ascii d) eqn:E1;
  destruct (nat_of_ascii d <? nat_of_ascii c) eqn:E2; auto.
  apply Nat.ltb_lt in E1, E2. lia.
Qed.

Lemma text_ltb_total a b : a <> b -> text_ltb a b = false -> text_ltb b a = true.
Proof.
  revert b; induction a as [|c a IH]; intros [|d b]; simpl; try congruence.
  destruct (nat_of_ascii c <? nat_of_ascii d) eqn:E1; [congruence|].
  destruct (nat_of_ascii d <? nat_of_ascii c) eqn:E2; [reflexivity|].
  apply Nat.ltb_ge in E1, E2.
  assert (c = d) as -> by (apply nat_of_ascii_inj; lia).
  intros Hne Hl. apply IH; [congruence|exact Hl].
Qed.

Lemma key_ltb_asym a b : key_ltb a b = true -> key_ltb b a = false.
Proof.
  revert b; induction a as [|x a IH]; intros [|y b]; simpl; try congruence.
  destruct x as [m|u], y as [n|v]; try congruence.
  - destruct (m <? n)%Z eqn:E1; destruct (n <? m)%Z eqn:E2; auto.
    apply Z.ltb_lt in E1, E2. lia.
  - destruct (text_ltb u v) eqn:E1; destruct (text_ltb v u) eqn:E2; auto.
    rewrite (text_ltb_asym _ _ E1) in E2. discriminate.
Qed.

Lemma sorted_by_cons {A} (le : A -> A -> bool) y l :
  sorted_by le (y :: l) = true <->
  match l with [] => True | z :: _ => le y z = true end /\ sorted_by le l = true.
Proof.
  destruct l as [|z l]; simpl; [tauto|]. rewrite andb_true_iff. reflexivity.
Qed.

Lemma sorted_by_impl {A} (le le' : A -> A -> bool) l :
  (forall a b, le a b = true -> le' a b = true) ->
  sorted_by le l = true -> sorted_by le' l = true.
Proof.
  intros H. induction l as [|y l IH]; [reflexivity|].
  rewrite !sorted_by_cons. destruct l as [|z l']; intros [H1 H2]; split; auto.
Qed.

Section InsertionSort.
Context {A : Type} (lt : A -> A -> bool).
Hypothesis lt_asym : forall a b, lt a b = true -> lt b a = false.

Lemma insert_by_sorted_cons x l : forall y,
  negb (lt x y) = true -> sorted_by (fun a b => negb (lt b a)) (y :: l) = true -> sorted_by (fun a b => negb (lt b a)) (y :: insert_by lt x l) = true.
Proof.
  induction l as [|z l IH]; intros y Hyx Hs.
  - simpl. rewrite Hyx. reflexivity.
  - apply sorted_by_cons in Hs as [Hyz Hs]. cbn [insert_by].
    destruct (lt x z) eqn:Exz.
    + apply sorted_by_cons. split; [exact Hyx|].
      apply sorted_by_cons. split; [|exact Hs].
      cbv beta. rewrite (lt_asym _ _ Exz). reflexivity.
    + apply sorted_by_cons. split; [exact Hyz|].
      apply IH; [cbv beta; rewrite Exz; reflexivity|exact Hs].
Qed.

Lemma insert_by_sorted x l : sorted_by (fun a b => negb (lt b a)) l = true -> sorted_by (fun a b => negb (lt b a)) (insert_by lt x l) = true.
Proof.
  destruct l as [|z l]; intros Hs; [reflexivity|]. cbn [insert_by].
  destruct (lt x z) eqn:Exz.
  - apply sorted_by_cons. split; [|exact Hs]. cbv beta. rewrite (lt_asym _ _ Exz). reflexivity.
  - apply insert_by_sorted_cons; [cbv beta; rewrite Exz; reflexivity|exact Hs].
Qed.

Lemma stable_sort_sorted l : sorted_by (fun a b => negb (lt b a)) (stable_sort lt l) = true.
Proof.
  unfold stable_sort.
  assert (forall acc, sorted_by (fun a b => negb (lt b a)) acc = true ->
            sorted_by (fun a b => negb (lt b a)) (fold_left (fun acc x => insert_by lt x acc) l acc) = true) as H.
  { induction l as [|x l IH]; intros acc Hacc; [exact Hacc|]. apply IH, insert_by_sorted, Hacc. }
  apply H. reflexivity.
Qed.

End InsertionSort.

Lemma sorted_by_firstn {A} (le : A -> A -> bool) n l :
  sorted_by le l = true -> sorted_by le (firstn n l) = true.
Proof.
  revert l; induction n as [|n IH]; intros l Hs; [reflexivity|].
  destruct l as [|y l]; [reflexivity|]. cbn [firstn].
  apply sorted_by_cons in Hs as [H1 H2]. apply sorted_by_cons. split; [|apply IH, H2].
  destruct n, l; simpl in *; auto.
Qed.

Lemma sorted_by_strict {A} (lt : A -> A -> bool) l :
  (forall a b, a <> b -> lt a b = false -> lt b a = true) ->
  NoDup l -> sorted_by (fun a b => negb (lt b a)) l = true -> sorted_by lt l = true.
Proof.
  intros Htot. induction l as [|y l IH]; intros Hnd Hs; [reflexivity|].
  inversion Hnd as [|? ? Hni Hnd']; subst.
  apply sorted_by_cons in Hs as [H1 H2]. apply sorted_by_cons. split; [|apply IH; assumption].
  destruct l as [|z l']; [exact I|].
  destruct (lt y z) eqn:E; [reflexivity|].
  apply negb_true_iff in H1. rewrite Htot in H1; [discriminate| |exact E].
  intros ->. apply Hni. left. reflexivity.
Qed.

Lemma NoDup_firstn {A} n (l : list A) : NoDup l -> NoDup (firstn n l).
Proof.
  intros H. rewrite <- (firstn_skipn n l) in H. exact (NoDup_app_remove_r _ _ H).
Qed.

Lemma in_firstn {A} n (l : list A) x : In x (firstn n l) -> In x l.
Proof. intros H. rewrite <- (firstn_skipn n l). apply in_or_app. left. exact H. Qed.

Lemma set_add_nodup acc x : NoDup acc -> NoDup (set_add acc x).
Proof.
  unfold set_add. destruct (existsb (text_eqb x) acc) eqn:E; intros H; [exact H|].
  apply (Permutation_NoDup (Permutation_cons_append acc x)).
  constructor; [|exact H]. intros Hin.
  assert (existsb (text_eqb x) acc = true) as E' by
    (apply existsb_exists; exists x; split; [exact Hin|apply text_eqb_eq; reflexivity]).
  congruence.
Qed.

Lemma fold_set_add_nodup xs acc : NoDup acc -> NoDup (fold_left set_add xs acc).
Proof.
  revert acc; induction xs as [|x xs IH]; intros acc H; [exact H|]. apply IH, set_add_nodup, H.
Qed.

Lemma extract_keywords_spec content m :
  let ks := extract_keywords content m in
  length ks <= m /\ NoDup ks /\ sorted_by text_ltb ks = true /\
  Forall (fun k => 2 < length k /\ is_digit_text k = false) ks.
Proof.
  intros ks. unfold ks, extract_keywords. cbv zeta.
  set (kw1 := fold_left set_add _ []).
  set (kw2 := fold_left _ _ kw1).
  set (filtered := filter (fun k => (2 <? length k) && negb (is_digit_text k)) kw2).
  assert (NoDup kw2) as Hkw2.
  { unfold kw2. assert (NoDup kw1) as H1 by (apply fold_set_add_nodup; constructor).
    revert H1. generalize kw1.
    induction (find_emph (S (length content)) content) as [|x xs IH]; intros acc Hacc;
      [exact Hacc|].
    cbn [fold_left]. apply IH. destruct (3 <? length x); [apply set_add_nodup|]; exact Hacc. }
  assert (NoDup (stable_sort text_ltb filtered)) as Hnd
    by (apply (Permutation_NoDup (Permutation_sym (stable_sort_perm _ _))), NoDup_filter, Hkw2).
  split; [apply firstn_le_length|]. split; [apply NoDup_firstn, Hnd|]. split.
  - apply sorted_by_strict; [exact text_ltb_total|apply NoDup_firstn, Hnd|].
    apply sorted_by_firstn, stable_sort_sorted, text_ltb_asym.
  - apply Forall_forall. intros k Hk.
    apply in_firstn in Hk. apply (Permutation_in _ (stable_sort_perm _ _)) in Hk.
    unfold filtered in Hk. apply filter_In in Hk as [_ Hk].
    apply andb_true_iff in Hk as [H1 H2]. apply Nat.ltb_lt in H1. apply negb_true_iff in H2. auto.
Qed.

(** [extract_keywords] returns at most [max_keywords] keywords, without
    repetition, in strictly increasing string order; each has more than two
    characters and is not made of digits only. *)
Theorem extract_keywords_sorted (content : text) (max_keywords : nat) :
  let ks := extract_keywords content max_keywords in
  length ks <= max_keywords /\ NoDup ks /\ sorted_by text_ltb ks = true /\
  Forall (fun k => 2 < length k /\ is_digit_text k = false) ks.
Proof. apply extract_keywords_spec. Qed.

Lemma sort_by_key_sorted {A K} (key : A -> K) (klt : K -> K -> bool) (reverse : bool) (l : list A) :
  (forall a b, klt a b = true -> klt b a = false) ->
  sorted_by (fun a b => if reverse then negb (klt (key a) (key b)) else negb (klt (key b) (key a)))
    (sort_by_key key klt reverse l) = true.
Proof.
  intros Hasym. unfold sort_by_key.
  eapply sorted_by_impl; [|apply stable_sort_sorted].
  - intros a b H. destruct reverse; exact H.
  - intros a b. destruct reverse; apply Hasym.
Qed.

Lemma nat_ltb_asym a b : (a <? b) = true -> (b <? a) = false.
Proof. intros H. apply Nat.ltb_lt in H. apply Nat.ltb_ge. lia. Qed.

Lemma z_ltb_asym a b : (a <? b)%Z = true -> (b <? a)%Z = false.
Proof. intros H. apply Z.ltb_lt in H. apply Z.ltb_ge. lia. Qed.

(** [_sort_files] orders the files by the key that [sort_order] selects,
    ascending or descending as [sort_ascending] says (for text keys: no
    file is followed by one with a smaller key); any other [sort_order]
    keeps the order; in every case the result is a permutation of the
    input. *)
Theorem sort_files_sorted (cfg : AnalyzerConfig) (files : list FileInfo) :
  let r := sort_files cfg files in
  let asc := sort_ascending cfg in
  (sort_order cfg = "size"%string ->
   sorted_by (fun a b => if asc then fi_size a <=? fi_size b else fi_size b <=? fi_size a) r = true) /\
  (sort_order cfg = "date"%string ->
   sorted_by (fun a b => if asc then (fi_modified a <=? fi_modified b)%Z
                         else (fi_modified b <=? fi_modified a)%Z) r = true) /\
  (sort_order cfg = "alphabetical"%string ->
   sorted_by (fun a b => let ka := lower (path_str (fi_path a)) in
                         let kb := lower (path_str (fi_path b)) in
                         if asc then negb (text_ltb kb ka) else negb (text_ltb ka kb)) r = true) /\
  (sort_order cfg = "natural"%string ->
   sorted_by (fun a b => let ka := natural_sort_key (path_str (fi_path a)) in
                         let kb := natural_sort_key (path_str (fi_path b)) in
                         if asc then negb (key_ltb kb ka) else negb (key_ltb ka kb)) r = true) /\
  (~ In (sort_order cfg) ["size"; "date"; "alphabetical"; "natural"]%string -> r = files) /\
  Permutation r files.
Proof.
  intros r asc. unfold r, asc.
  split; [|split; [|split; [|split; [|split]]]].
  - intros E. unfold sort_files. rewrite E. cbn -[sort_by_key].
    eapply sorted_by_impl; [|apply sort_by_key_sorted, nat_ltb_asym].
    intros a b. destruct (sort_ascending cfg); cbn; intros H; apply negb_true_iff, Nat.ltb_ge in H;
      apply Nat.leb_le; lia.
  - intros E. unfold sort_files. rewrite E. cbn -[sort_by_key].
    eapply sorted_by_impl; [|apply sort_by_key_sorted, z_ltb_asym].
    intros a b. destruct (sort_ascending cfg); cbn; intros H; apply negb_true_iff, Z.ltb_ge in H;
      apply Z.leb_le; lia.
  - intros E. unfold sort_files. rewrite E. cbn -[sort_by_key].
    eapply sorted_by_impl; [|apply sort_by_key_sorted, text_ltb_asym].
    intros a b H. destruct (sort_ascending cfg); exact H.
  - intros E. unfold sort_files. rewrite E. cbn -[sort_by_key].
    eapply sorted_by_impl; [|apply sort_by_key_sorted, key_ltb_asym].
    intros a b H. destruct (sort_ascending cfg); exact H.
  - intros Hn. unfold sort_files.
    destruct (String.eqb_spec (sort_order cfg) "alphabetical") as [E|_];
      [exfalso; apply Hn; rewrite E; simpl; tauto|].
    destruct (String.eqb_spec (sort_order cfg) "natural") as [E|_];
      [exfalso; apply Hn; rewrite E; simpl; tauto|].
    destruct (String.eqb_spec (sort_order cfg) "date") as [E|_];
      [exfalso; apply Hn; rewrite E; simpl; tauto|].
    destruct (String.eqb_spec (sort_order cfg) "size") as [E|_];
      [exfalso; apply Hn; rewrite E; simpl; tauto|].
    reflexivity.
  - apply sort_files_perm.
Qed.

(** [sort_files_sorted] for a descending sort by size. *)
Lemma sort_files_sorted_witness :
  sorted_by (fun a b => fi_size b <=? fi_size a)
    (sort_files (mkAnalyzerConfig ["*.md"]%string [] true (-1) "size" false true) ex_files) = true.
Proof.
  exact (proj1 (sort_files_sorted (mkAnalyzerConfig ["*.md"]%string [] true (-1) "size" false true)
                  ex_files) eq_refl).
Defined.

(** ** File discovery: [_scan_directory] and [discover_files] *)

Lemma scan_directory_dir cfg dir n r ch d :
  scan_directory cfg dir (DirE n r ch) d =
  if (0 <=? max_depth cfg)%Z && (Z.of_nat d >? max_depth cfg)%Z then []
  else if negb r then [] else scan_children cfg dir d ch.
Proof. reflexivity. Qed.

Lemma scan_children_nil cfg dir d : scan_children cfg dir d [] = [].
Proof. reflexivity. Qed.

Lemma scan_children_file cfg dir d n sz mt c es :
  scan_children cfg dir d (FileE n sz mt c :: es) =
  (if matches_filters cfg (dir ++ [n]) then [analyze_file (dir ++ [n]) sz mt c] else [])
  ++ scan_children cfg dir d es.
Proof. reflexivity. Qed.

Lemma scan_children_dir cfg dir d n r ch es :
  scan_children cfg dir d (DirE n r ch :: es) =
  (if recursive cfg then
     if starts_with (t ".") (t n) then []
     else scan_directory cfg (dir ++ [n]) (DirE n r ch) (S d)
   else [])
  ++ scan_children cfg dir d es.
Proof. reflexivity. Qed.

Lemma scan_directory_file cfg dir n sz mt c d : scan_directory cfg dir (FileE n sz mt c) d = [].
Proof. simpl. destruct (_ && _); reflexivity. Qed.

Lemma analyze_file_fields p sz mt c :
  fi_path (analyze_file p sz mt c) = p /\ fi_hash (analyze_file p sz mt c) = None.
Proof. split; reflexivity. Qed.

Lemma scan_directory_spec cfg e : forall dir d f,
  In f (scan_directory cfg dir e d) ->
  matches_filters cfg (fi_path f) = true /\ fi_hash f = None /\
  exists rel, fi_path f = dir ++ rel /\ rel <> [] /\
    (recursive cfg = false -> length rel = 1) /\
    ((0 <= max_depth cfg)%Z -> (Z.of_nat (d + length rel) <= max_depth cfg + 1)%Z) /\
    Forall (fun n => starts_with (t ".") (t n) = false) (removelast rel).
Proof.
  induction e as [n sz mt c|n r ch Hch] using entry_ind'.
  - intros dir d f H. rewrite scan_directory_file in H. destruct H.
  - intros dir d f. rewrite scan_directory_dir.
    destruct ((0 <=? max_depth cfg)%Z && (Z.of_nat d >? max_depth cfg)%Z) eqn:Hd; [intros []|].
    destruct r; [|intros []]. cbn [negb].
    assert (Hdep : (0 <= max_depth cfg)%Z -> (Z.of_nat d <= max_depth cfg)%Z).
    { intros H0. apply andb_false_iff in Hd as [Hd|Hd].
      - apply Z.leb_gt in Hd. lia.
      - rewrite Z.gtb_ltb in Hd. apply Z.ltb_ge in Hd. lia. }
    clear Hd. induction Hch as [|e es He Hes IH]; [intros []|].
    destruct e as [n1 sz mt c|n1 r1 ch1];
      rewrite ?scan_children_file, ?scan_children_dir; intros Hin;
      apply in_app_or in Hin as [Hin|Hin]; try (apply IH; exact Hin).
    + destruct (matches_filters cfg (dir ++ [n1])) eqn:Em; [|destruct Hin].
      destruct Hin as [<-|[]]. destruct (analyze_file_fields (dir ++ [n1]) sz mt c) as [Hp Hh].
      rewrite Hp, Hh. split; [exact Em|]. split; [reflexivity|].
      exists [n1]. split; [reflexivity|]. split; [discriminate|]. split; [reflexivity|].
      split; [intros H0; specialize (Hdep H0); simpl length; lia|constructor].
    + destruct (recursive cfg) eqn:Er; [|destruct Hin].
      destruct (starts_with (t ".") (t n1)) eqn:Eh; [destruct Hin|].
      apply He in Hin as (Hm & Hh & rel & Hp & Hne & _ & Hdep' & Hhid).
      split; [exact Hm|]. split; [exact Hh|].
      exists (n1 :: rel). rewrite Hp, <- app_assoc. split; [reflexivity|].
      split; [discriminate|]. split; [congruence|].
      split; [intros H0; specialize (Hdep' H0); simpl length; lia|].
      destruct rel as [|x rel']; [congruence|].
      change (removelast (n1 :: x :: rel')) with (n1 :: removelast (x :: rel')).
      constructor; assumption.
Qed.

Lemma discover_files_spec cfg fs paths f :
  In f (discover_files cfg fs paths) ->
  matches_filters cfg (fi_path f) = true /\ fi_hash f = None /\
  exists p rel, In p paths /\ fi_path f = p ++ rel /\
    (recursive cfg = false -> length rel <= 1) /\
    ((0 <= max_depth cfg)%Z -> (Z.of_nat (length rel) <= max_depth cfg + 1)%Z) /\
    Forall (fun n => starts_with (t ".") (t n) = false) (removelast rel).
Proof.
  unfold discover_files. intros Hin.
  apply (Permutation_in _ (sort_files_perm _ _)) in Hin.
  apply in_flat_map in Hin as (p & Hp & Hin). unfold discover_path in Hin.
  destruct (lookup_in fs p) as [[n sz mt c|n r ch]|]; [| |destruct Hin].
  - destruct (matches_filters cfg p) eqn:Em; [|destruct Hin].
    destruct Hin as [<-|[]]. destruct (analyze_file_fields p sz mt c) as [Hp' Hh].
    rewrite Hp', Hh. split; [exact Em|]. split; [reflexivity|].
    exists p, []. rewrite app_nil_r. repeat split; auto; simpl; lia.
  - apply scan_directory_spec in Hin as (Hm & Hh & rel & Hpr & _ & Hrec & Hdep & Hhid).
    split; [exact Hm|]. split; [exact Hh|]. exists p, rel.
    split; [exact Hp|]. split; [exact Hpr|]. split; [intros H0; rewrite Hrec by exact H0; lia|].
    split; [exact Hdep|exact Hhid].
Qed.

(** Every file [discover_files] returns passes the include and exclude
    patterns, has no hash yet, and lies at or under one of the given paths:
    directly inside it when the scan is not recursive, at most
    [max_depth + 1] components below it when [max_depth] is not negative,
    and never inside a directory whose name starts with a dot. *)
Theorem discover_files_found (cfg : AnalyzerConfig) (fs : list entry) (paths : list path)
  (f : FileInfo) :
  In f (discover_files cfg fs paths) ->
  matches_filters cfg (fi_path f) = true /\ fi_hash f = None /\
  exists p rel, In p paths /\ fi_path f = p ++ rel /\
    (recursive cfg = false -> length rel <= 1) /\
    ((0 <= max_depth cfg)%Z -> (Z.of_nat (length rel) <= max_depth cfg + 1)%Z) /\
    Forall (fun n => starts_with (t ".") (t n) = false) (removelast rel).
Proof. apply discover_files_spec. Qed.

(** [discover_files_found] on [notes/b.md], found by scanning [notes]. *)
Lemma discover_files_found_witness :
  In (analyze_file ["notes"; "b.md"]%string 3 200 (t "# A"))
     (discover_files default_analyzer_config ex_fs [["notes"]%string]) /\
  matches_filters default_analyzer_config ["notes"; "b.md"]%string = true.
Proof.
  assert (H : In (analyze_file ["notes"; "b.md"]%string 3 200 (t "# A"))
                 (discover_files default_analyzer_config ex_fs [["notes"]%string]))
    by (vm_compute; left; reflexivity).
  split; [exact H|].
  exact (proj1 (discover_files_found default_analyzer_config ex_fs [["notes"]%string] _ H)).
Defined.

(** ** [detect_duplicates] *)

Lemma bucket_of_add h h' f m :
  bucket_of h (bucket_add h' f m) = if String.eqb h' h then bucket_of h m ++ [f] else bucket_of h m.
Proof.
  unfold bucket_of. induction m as [|[k fs] m IH]; cbn [bucket_add find fst snd].
  - destruct (String.eqb h' h); reflexivity.
  - destruct (String.eqb_spec h' k) as [<-|Hne]; cbn [find fst snd].
    + destruct (String.eqb h' h); reflexivity.
    + destruct (String.eqb_spec k h) as [->|Hkh].
      * apply String.eqb_neq in Hne. rewrite Hne. reflexivity.
      * exact IH.
Qed.

Lemma bucket_add_keys_in h f m k : In k (map fst (bucket_add h f m)) -> k = h \/ In k (map fst m).
Proof.
  induction m as [|[k' fs] m IH]; cbn [bucket_add map fst].
  - intros [->|[]]. left. reflexivity.
  - destruct (String.eqb h k'); cbn [map fst]; intros [->|Hin].
    + right. left. reflexivity.
    + right. right. exact Hin.
    + right. left. reflexivity.
    + destruct (IH Hin) as [->|Hin']; [left; reflexivity|right; right; exact Hin'].
Qed.

Lemma bucket_add_nodup h f m : NoDup (map fst m) -> NoDup (map fst (bucket_add h f m)).
Proof.
  induction m as [|[k fs] m IH]; cbn [bucket_add map fst]; intros Hnd.
  - repeat constructor. intros [].
  - inversion Hnd as [|? ? Hni Hnd']; subst.
    destruct (String.eqb_spec h k) as [->|Hne]; cbn [map fst]; [exact Hnd|].
    constructor; [|apply IH, Hnd']. intros Hin.
    destruct (bucket_add_keys_in _ _ _ _ Hin) as [->|Hin']; [congruence|contradiction].
Qed.

Lemma hash_files_spec md5 fs files : forall m m',
  hash_files md5 fs files m = Some m' ->
  (NoDup (map fst m) -> NoDup (map fst m')) /\
  forall h, bucket_of h m' = bucket_of h m ++ files_with_hash md5 fs h files.
Proof.
  induction files as [|f rest IH]; intros m m' H; cbn [hash_files] in H.
  - injection H as <-. split; [auto|]. intros h. unfold files_with_hash. simpl. rewrite app_nil_r.
    reflexivity.
  - destruct (calculate_file_hash md5 fs (fi_path f)) as [h0|] eqn:Ec; [|discriminate].
    destruct (IH _ _ H) as [Hnd Hb]. split.
    + intros Hm. apply Hnd, bucket_add_nodup, Hm.
    + intros h. rewrite Hb, bucket_of_add. unfold files_with_hash. cbn [filter]. rewrite Ec.
      destruct (String.eqb_spec h0 h) as [->|_]; cbn [map]; rewrite <- ?app_assoc; reflexivity.
Qed.

Lemma hash_files_none md5 fs files : forall m,
  hash_files md5 fs files m = None <->
  exists f, In f files /\ calculate_file_hash md5 fs (fi_path f) = None.
Proof.
  induction files as [|f rest IH]; intros m; cbn [hash_files].
  - split; [discriminate|intros (f & [] & _)].
  - destruct (calculate_file_hash md5 fs (fi_path f)) as [h0|] eqn:Ec.
    + rewrite IH. split.
      * intros (g & Hg & Hn). exists g. split; [right; exact Hg|exact Hn].
      * intros (g & [<-|Hg] & Hn); [congruence|]. exists g. split; assumption.
    + split; [intros _; exists f; split; [left; reflexivity|exact Ec]|reflexivity].
Qed.

Lemma bucket_of_in h g m : NoDup (map fst m) -> In (h, g) m -> bucket_of h m = g.
Proof.
  unfold bucket_of. induction m as [|[k fs] m IH]; [intros _ []|].
  cbn [find fst snd map]. intros Hnd Hin. inversion Hnd as [|? ? Hni Hnd']; subst.
  destruct Hin as [E|Hin].
  - injection E as -> ->. rewrite String.eqb_refl. reflexivity.
  - destruct (String.eqb_spec k h) as [->|_]; [|apply IH; assumption].
    exfalso. apply Hni. apply (in_map fst) in Hin. exact Hin.
Qed.

Lemma bucket_of_nonempty h m : bucket_of h m <> [] -> In (h, bucket_of h m) m.
Proof.
  unfold bucket_of. destruct (find (fun p => String.eqb (fst p) h) m) as [[k g]|] eqn:E;
    [|congruence].
  intros _. apply find_some in E as [Hin Hk]. apply String.eqb_eq in Hk. cbn in Hk |- *.
  subst k. exact Hin.
Qed.

Lemma nodup_keys_filter (p : string * list FileInfo -> bool) m :
  NoDup (map fst m) -> NoDup (map fst (filter p m)).
Proof.
  induction m as [|[k g] m IH]; [intros; constructor|]. cbn [map fst filter].
  intros Hnd. inversion Hnd as [|? ? Hni Hnd']; subst.
  destruct (p (k, g)); cbn [map fst]; [constructor|]; auto.
  intros Hin. apply Hni. apply in_map_iff in Hin as ([k' g'] & <- & Hin).
  apply filter_In in Hin as [Hin _]. apply (in_map fst) in Hin. exact Hin.
Qed.

Lemma detect_duplicates_spec cfg md5 fs files groups :
  cfg_detect_duplicates cfg = true ->
  detect_duplicates cfg md5 fs files = Some groups ->
  NoDup (map fst groups) /\
  (forall h g, In (h, g) groups -> g = files_with_hash md5 fs h files) /\
  (forall h, 2 <= length (files_with_hash md5 fs h files) ->
     In (h, files_with_hash md5 fs h files) groups).
Proof.
  intros Hon H. unfold detect_duplicates in H. rewrite Hon in H. cbn [negb] in H.
  destruct (hash_files md5 fs files []) as [m|] eqn:Eh; [|discriminate].
  injection H as <-. destruct (hash_files_spec _ _ _ _ _ Eh) as [Hnd Hb].
  specialize (Hnd (NoDup_nil _)).
  split; [apply nodup_keys_filter, Hnd|]. split.
  - intros h g Hin. apply filter_In in Hin as [Hin _].
    rewrite <- (bucket_of_in _ _ _ Hnd Hin), Hb. reflexivity.
  - intros h Hl.
    assert (bucket_of h m = files_with_hash md5 fs h files) as Hb' by (rewrite Hb; reflexivity).
    rewrite <- Hb' in Hl |- *.
    assert (bucket_of h m <> []) as Hne by (intros E; rewrite E in Hl; cbn in Hl; lia).
    apply filter_In. split; [apply bucket_of_nonempty, Hne|].
    apply Nat.ltb_lt. cbn [snd]. lia.
Qed.

(** With duplicate detection on, when [detect_duplicates] succeeds its
    groups have distinct hashes; the group of hash [h] lists, in input
    order, exactly the input files whose content hashes to [h], each with
    its [hash] field set to [h]; and every hash shared by two or more input
    files has its group. *)
Theorem detect_duplicates_exact (cfg : AnalyzerConfig) (md5 : text -> string) (fs : list entry)
  (files : list FileInfo) (groups : list (string * list FileInfo)) :
  cfg_detect_duplicates cfg = true ->
  detect_duplicates cfg md5 fs files = Some groups ->
  NoDup (map fst groups) /\
  (forall h g, In (h, g) groups -> g = files_with_hash md5 fs h files) /\
  (forall h, 2 <= length (files_with_hash md5 fs h files) ->
     In (h, files_with_hash md5 fs h files) groups).
Proof. apply detect_duplicates_spec. Qed.

(** [detect_duplicates_exact] on [a.md] and [notes/b.md], which have the same
    content. *)
Lemma detect_duplicates_exact_witness :
  NoDup (map fst [("h"%string, [mkFileInfo ["a.md"]%string 3 100 (Some "h"%string) [];
                                mkFileInfo ["notes"; "b.md"]%string 3 200 (Some "h"%string) []])]).
Proof.
  exact (proj1 (detect_duplicates_exact default_analyzer_config (fun _ => "h"%string) ex_fs
    [mkFileInfo ["a.md"]%string 3 100 None []; mkFileInfo ["notes"; "b.md"]%string 3 200 None []]
    _ eq_refl eq_refl)).
Defined.

(** With duplicate detection on, [detect_duplicates] fails (the exception of
    [open] propagates) exactly when one of the files cannot be read: no file
    is skipped. *)
Theorem detect_duplicates_unreadable (cfg : AnalyzerConfig) (md5 : text -> string)
  (fs : list entry) (files : list FileInfo) :
  cfg_detect_duplicates cfg = true ->
  (detect_duplicates cfg md5 fs files = None <->
   exists f, In f files /\ calculate_file_hash md5 fs (fi_path f) = None).
Proof.
  intros Hon. unfold detect_duplicates. rewrite Hon. cbn [negb]. rewrite <- (hash_files_none _ _ _ []).
  destruct (hash_files md5 fs files []); split; congruence.
Qed.

(** [detect_duplicates_unreadable] when a listed file does not exist. *)
Lemma detect_duplicates_unreadable_witness :
  detect_duplicates default_analyzer_config (fun _ => "h"%string) ex_fs
    [mkFileInfo ["missing.md"]%string 0 0 None []] = None.
Proof.
  apply (detect_duplicates_unreadable default_analyzer_config (fun _ => "h"%string) ex_fs _ eq_refl).
  exists (mkFileInfo ["missing.md"]%string 0 0 None []). split; [left; reflexivity|vm_compute; reflexivity].
Defined.

(** ** [MergeEngine.merge] *)

Lemma phase1_bytes env n files :
  (forall j, env_cancelled env j = false) -> (forall j, env_callback env j = None) ->
  forall i docs errs bytes, exists errs',
    phase1 env n files i docs errs bytes =
    P1Done (docs ++ ok_docs env n files i) (errs ++ errs') (bytes + ok_bytes env n files i).
Proof.
  intros Hc Hcb. induction files as [|f rest IH]; intros i docs errs bytes; simpl.
  - exists []. rewrite !app_nil_r, Nat.add_0_r. reflexivity.
  - rewrite Hc, Hcb. destruct (env_process env f i n) as [d|e].
    + destruct (IH (S i) (docs ++ [d]) errs (bytes + fi_size f)) as (errs' & H).
      exists errs'. rewrite H, <- app_assoc, Nat.add_assoc. reflexivity.
    + match goal with |- context [phase1 env n rest (S i) docs ?es bytes] =>
        destruct (IH (S i) docs es bytes) as (errs' & H) end.
      eexists. rewrite H, <- app_assoc. reflexivity.
Qed.

Lemma ok_docs_failed_count env n files i :
  length (ok_docs env n files i) + failed_count env n files i = length files.
Proof.
  revert i; induction files as [|f rest IH]; intros i; [reflexivity|]. simpl.
  destruct (env_process env f i n); simpl; rewrite <- (IH (S i)); lia.
Qed.

Lemma merge_best_effort_spec lib cfg env files out dry_run :
  (forall j, env_cancelled env j = false) -> (forall j, env_callback env j = None) ->
  (forall txt, env_write env txt = None) ->
  let r := merge lib cfg env files out dry_run in
  files_merged r = length (ok_docs env (length files) files 1) /\
  length (errors r) = failed_count env (length files) files 1 /\
  files_merged r + length (errors r) = length files /\
  total_size r = ok_bytes env (length files) files 1 /\
  success r = (failed_count env (length files) files 1 =? 0) /\
  output_path r = (if dry_run then None else Some out).
Proof.
  intros Hc Hcb Hw r.
  destruct (merge_best_effort lib cfg env files out dry_run Hc Hcb Hw) as (H1 & H2 & H3).
  fold r in H1, H2, H3. rewrite H1, H2, H3. split; [reflexivity|]. split; [reflexivity|].
  split; [apply ok_docs_failed_count|].
  unfold r, merge. destruct (phase1_bytes env (length files) files Hc Hcb 1 [] [] 0) as (errs' & ->).
  destruct dry_run; [|rewrite Hw]; cbn; auto.
Qed.

(** When no cancellation is observed, no progress callback raises and the
    write succeeds, every file is accounted for: [files_merged] counts the
    files that could be processed, [errors] holds one entry per file that
    could not, the two add up to the number of files, [total_size] is the
    sum of the sizes of the merged files, and the output path is reported
    unless it is a dry run. *)
Theorem merge_accounts_every_file (lib : PyLib) (cfg : MergeConfig) (env : MergeEnv)
  (files : list FileInfo) (out : path) (dry_run : bool) :
  (forall j, env_cancelled env j = false) -> (forall j, env_callback env j = None) ->
  (forall txt, env_write env txt = None) ->
  let r := merge lib cfg env files out dry_run in
  files_merged r = length (ok_docs env (length files) files 1) /\
  length (errors r) = failed_count env (length files) files 1 /\
  files_merged r + length (errors r) = length files /\
  total_size r = ok_bytes env (length files) files 1 /\
  success r = (failed_count env (length files) files 1 =? 0) /\
  output_path r = (if dry_run then None else Some out).
Proof. apply merge_best_effort_spec. Qed.

(** [merge_accounts_every_file] on two files that are both merged. *)
Lemma merge_accounts_every_file_witness :
  total_size (merge ex_lib default_config ex_env_ok ex_files ["out.md"]%string false) = 30.
Proof.
  destruct (merge_accounts_every_file ex_lib default_config ex_env_ok ex_files ["out.md"]%string false
              (fun _ => eq_refl) (fun _ => eq_refl) (fun _ => eq_refl)) as (_ & _ & _ & H & _).
  rewrite H. reflexivity.
Defined.

Lemma phase1_ext env env' n files :
  env_cancelled env = env_cancelled env' -> env_callback env = env_callback env' ->
  env_process env = env_process env' ->
  forall i docs errs bytes, phase1 env n files i docs errs bytes = phase1 env' n files i docs errs bytes.
Proof.
  intros Hc Hcb Hp. induction files as [|f rest IH]; intros i docs errs bytes; [reflexivity|].
  simpl. rewrite Hc, Hcb, Hp. destruct (env_cancelled env' i); [reflexivity|].
  destruct (env_callback env' i); [reflexivity|]. destruct (env_process env' f i n); apply IH.
Qed.

(** A dry run reports no output path and no warning, and its result does not
    depend on whether the output file exists, on the backup or on the
    write: it neither backs up nor writes anything. *)
Theorem merge_dry_run_no_effect (lib : PyLib) (cfg : MergeConfig) (env env' : MergeEnv)
  (files : list FileInfo) (out : path) :
  env_cancelled env = env_cancelled env' -> env_callback env = env_callback env' ->
  env_process env = env_process env' ->
  merge lib cfg env files out true = merge lib cfg env' files out true /\
  output_path (merge lib cfg env files out true) = None /\
  warnings (merge lib cfg env files out true) = [].
Proof.
  intros Hc Hcb Hp. unfold merge. cbn [negb andb]. rewrite (phase1_ext env env' _ _ Hc Hcb Hp).
  split; [reflexivity|].
  destruct (phase1 env' (length files) files 1 [] [] 0); split; reflexivity.
Qed.

(** [merge_dry_run_no_effect]: a dry run with a failing write and an
    existing output whose backup fails gives the result of a plain run. *)
Lemma merge_dry_run_no_effect_witness :
  merge ex_lib default_config
    (mkEnv (fun _ => false) (fun _ => None) (env_process ex_env_ok) true (Some (t "denied"))
       (fun _ => Some (t "full"))) ex_files ["out.md"]%string true =
  merge ex_lib default_config ex_env_ok ex_files ["out.md"]%string true.
Proof. exact (proj1 (merge_dry_run_no_effect _ _ _ _ _ _ eq_refl eq_refl eq_refl)). Defined.

(** ** [MergeEngine.generate_preview] *)

Lemma preview_lines_length lib cfg env files max_lines :
  (0 <= max_lines)%Z -> length (preview_lines lib cfg env files max_lines) <= Z.to_nat max_lines + 2.
Proof.
  intros Hm. unfold preview_lines. cbv zeta.
  match goal with |- context [(max_lines <? Z.of_nat (length ?l))%Z] => set (lines := l) end.
  destruct (max_lines <? Z.of_nat (length lines))%Z eqn:E.
  - unfold py_take. apply Z.leb_le in Hm. rewrite Hm, length_app.
    pose proof (firstn_le_length (Z.to_nat max_lines) lines). simpl. lia.
  - apply Z.ltb_ge in E. lia.
Qed.

(** [generate_preview] on no file returns ["No files to preview."]; with a
    non-negative [max_lines] the list of lines it joins has at most
    [max_lines + 2] elements (the kept lines, an empty line and the
    truncation notice). *)
Theorem generate_preview_bounded (lib : PyLib) (cfg : MergeConfig) (env : MergeEnv)
  (files : list FileInfo) (max_lines : Z) :
  generate_preview lib cfg env [] max_lines = t "No files to preview." /\
  ((0 <= max_lines)%Z ->
   length (preview_lines lib cfg env files max_lines) <= Z.to_nat max_lines + 2).
Proof. split; [reflexivity|apply preview_lines_length]. Qed.

(** [generate_preview_bounded] with [max_lines = 0]. *)
Lemma generate_preview_bounded_witness :
  length (preview_lines ex_lib default_config ex_env_ok ex_files 0) <= 2.
Proof. exact (proj2 (generate_preview_bounded ex_lib default_config ex_env_ok ex_files 0) ltac:(lia)). Defined.

Lemma preview_docs_ext lib cfg env env' n np fs : forall i,
  (forall f j, i <= j < i + length fs -> env_process env f j n = env_process env' f j n) ->
  preview_docs lib cfg env n np i fs = preview_docs lib cfg env' n np i fs.
Proof.
  induction fs as [|f fs IH]; intros i H; [reflexivity|]. cbn [preview_docs].
  unfold preview_doc_lines at 1 2. rewrite (H f i) by (simpl; lia).
  f_equal. apply IH. intros g j Hj. apply H. simpl. lia.
Qed.

(** [generate_preview] reads and processes at most the first three files:
    two runs whose processing agrees on the indices 1 to 3 give the same
    preview. *)
Theorem generate_preview_first_three (lib : PyLib) (cfg : MergeConfig) (env env' : MergeEnv)
  (files : list FileInfo) (max_lines : Z) :
  (forall f i, 1 <= i <= 3 -> env_process env f i (length files) = env_process env' f i (length files)) ->
  generate_preview lib cfg env files max_lines = generate_preview lib cfg env' files max_lines.
Proof.
  intros H. unfold generate_preview. destruct files as [|f0 fs0]; [reflexivity|].
  unfold preview_lines. cbv zeta.
  rewrite (preview_docs_ext lib cfg env env' _ _ (firstn 3 (f0 :: fs0)) 1); [reflexivity|].
  intros f j Hj. apply H. pose proof (firstn_le_length 3 (f0 :: fs0)). lia.
Qed.

(** [generate_preview_first_three]: failing to read the fourth and later
    files does not change the preview. *)
Lemma generate_preview_first_three_witness :
  generate_preview ex_lib default_config ex_env_ok ex_files 50 =
  generate_preview ex_lib default_config
    (mkEnv (fun _ => false) (fun _ => None)
       (fun f i n => if 4 <=? i then inr (t "denied") else inl (ex_doc f i n)) false None (fun _ => None))
    ex_files 50.
Proof.
  apply generate_preview_first_three. intros f i Hi. unfold ex_env_ok. cbn [env_process].
  destruct (4 <=? i) eqn:E; [apply Nat.leb_le in E; lia|reflexivity].
Defined.

(** ** [MainWindow.add_paths] *)

Lemma path_eqb_eq a b : path_eqb a b = true <-> a = b.
Proof.
  revert b; induction a as [|x a IH]; intros [|y b]; simpl; try (split; congruence).
  rewrite andb_true_iff, String.eqb_eq, IH. split; [intros [-> ->]; reflexivity|].
  intros E; injection E; auto.
Qed.

Lemma add_new_files_filter files new_files :
  add_new_files files new_files =
  files ++ filter (fun f => negb (existsb (path_eqb (fi_path f)) (map fi_path files))) new_files.
Proof.
  unfold add_new_files.
  assert (forall acc, fold_left (fun acc f => if existsb (path_eqb (fi_path f)) (map fi_path files)
                                              then acc else acc ++ [f]) new_files acc =
                      acc ++ filter (fun f => negb (existsb (path_eqb (fi_path f)) (map fi_path files)))
                               new_files) as H.
  { induction new_files as [|f rest IH]; intros acc; [rewrite app_nil_r; reflexivity|].
    cbn [fold_left filter]. rewrite IH.
    destruct (existsb (path_eqb (fi_path f)) (map fi_path files)); cbn [negb];
      [reflexivity|rewrite <- app_assoc; reflexivity]. }
  apply H.
Qed.

(** [add_paths] keeps the file list as it was and appends, in discovery
    order, exactly the discovered files whose path was not in the list
    before the call; none of the appended files has such a path, and
    discovered files are not compared with each other, so a path discovered
    twice is appended twice. *)
Theorem add_paths_appends_new (cfg : AnalyzerConfig) (fs : list entry) (files : list FileInfo)
  (paths : list path) :
  add_paths cfg fs files paths =
  files ++ filter (fun f => negb (existsb (path_eqb (fi_path f)) (map fi_path files)))
              (discover_files cfg fs paths) /\
  (forall f, In f (skipn (length files) (add_paths cfg fs files paths)) ->
     In f (discover_files cfg fs paths) /\ ~ In (fi_path f) (map fi_path files)).
Proof.
  unfold add_paths. rewrite add_new_files_filter. split; [reflexivity|].
  intros f Hin. rewrite skipn_app, Nat.sub_diag, skipn_all, app_nil_l in Hin. cbn [skipn] in Hin.
  apply filter_In in Hin as [Hin Hn]. split; [exact Hin|]. intros Hp.
  apply negb_true_iff in Hn.
  assert (existsb (path_eqb (fi_path f)) (map fi_path files) = true) as E
    by (apply existsb_exists; exists (fi_path f); split; [exact Hp|apply path_eqb_eq; reflexivity]).
  congruence.
Qed.

(** ** Document ids: [str(n)] and [f"{n:04d}"] *)

Lemma show_nat_go_app fuel : forall n acc, show_nat_go fuel n acc = show_nat_go fuel n [] ++ acc.
Proof.
  induction fuel as [|fuel IH]; intros n acc; [reflexivity|]. cbn [show_nat_go].
  destruct (n <? 10); [reflexivity|].
  rewrite IH, (IH (n / 10) [_]), <- app_assoc. reflexivity.
Qed.

Lemma digit_char_value k : k < 10 -> nat_of_ascii (ascii_of_nat (48 + k)) = 48 + k.
Proof. intros Hk. apply nat_ascii_embedding. lia. Qed.

Lemma digits_value_snoc l c :
  digits_value (l ++ [c]) = (digits_value l * 10 + Z.of_nat (nat_of_ascii c - 48))%Z.
Proof. unfold digits_value. rewrite fold_left_app. reflexivity. Qed.

Lemma show_nat_go_value fuel : forall n, n < fuel -> digits_value (show_nat_go fuel n []) = Z.of_nat n.
Proof.
  induction fuel as [|fuel IH]; intros n Hn; [lia|]. cbn [show_nat_go].
  pose proof (Nat.mod_upper_bound n 10 ltac:(lia)) as Hm.
  pose proof (Nat.div_mod_eq n 10) as Hd.
  destruct (n <? 10) eqn:E.
  - apply Nat.ltb_lt in E. change [ascii_of_nat (48 + n mod 10)] with ([] ++ [ascii_of_nat (48 + n mod 10)]).
    rewrite digits_value_snoc, digit_char_value by exact Hm.
    rewrite Nat.mod_small by exact E. cbn. lia.
  - apply Nat.ltb_ge in E. assert (n / 10 < fuel) as Hq by lia.
    rewrite show_nat_go_app, digits_value_snoc, IH, digit_char_value by assumption.
    lia.
Qed.

Lemma show_nat_value n : digits_value (show_nat n) = Z.of_nat n.
Proof. apply show_nat_go_value. lia. Qed.

Lemma digits_value_zeros k s : digits_value (repeat "0"%char k ++ s) = digits_value s.
Proof.
  unfold digits_value. rewrite fold_left_app. f_equal.
  induction k as [|k IH]; [reflexivity|]. cbn [repeat fold_left].
  rewrite <- IH at 2. clear IH. generalize (repeat "0"%char k). intros l.
  replace (0 * 10 + Z.of_nat (nat_of_ascii "0" - 48))%Z with 0%Z by reflexivity. reflexivity.
Qed.

Lemma pad4_value n : digits_value (pad4 n) = Z.of_nat n.
Proof. unfold pad4. rewrite digits_value_zeros. apply show_nat_value. Qed.

Lemma pad4_inj a b : pad4 a = pad4 b -> a = b.
Proof. intros H. apply Nat2Z.inj. rewrite <- !pad4_value, H. reflexivity. Qed.

Lemma show_nat_go_digits fuel : forall n, forallb is_digit (show_nat_go fuel n []) = true.
Proof.
  induction fuel as [|fuel IH]; intros n; [reflexivity|]. cbn [show_nat_go].
  assert (is_digit (ascii_of_nat (48 + n mod 10)) = true) as Hd.
  { pose proof (Nat.mod_upper_bound n 10 ltac:(lia)). unfold is_digit.
    rewrite digit_char_value by assumption. apply andb_true_iff. split; apply Nat.leb_le; lia. }
  destruct (n <? 10); [cbn [forallb]; rewrite Hd; reflexivity|].
  rewrite show_nat_go_app, forallb_app, IH. cbn [forallb]. rewrite Hd. reflexivity.
Qed.

Lemma pad4_digits n : forallb is_digit (pad4 n) = true.
Proof.
  assert (forallb is_digit (show_nat n) = true) as Hs by apply show_nat_go_digits.
  unfold pad4. cbv zeta. rewrite forallb_app, Hs, andb_true_r.
  generalize (4 - length (show_nat n)). intros k. induction k; [reflexivity|exact IHk].
Qed.

Lemma digits_prefix a b c x y :
  forallb is_digit a = true -> forallb is_digit b = true -> is_digit c = false ->
  a ++ c :: x = b ++ c :: y -> a = b.
Proof.
  revert b; induction a as [|u a IH]; intros [|v b] Ha Hb Hc H; cbn in *.
  - reflexivity.
  - injection H as -> _. apply andb_true_iff in Hb as [Hb _]. congruence.
  - injection H as <- _. apply andb_true_iff in Ha as [Ha _]. congruence.
  - injection H as -> H. apply andb_true_iff in Ha as [_ Ha]. apply andb_true_iff in Hb as [_ Hb].
    rewrite (IH b Ha Hb Hc H). reflexivity.
Qed.

Lemma document_ids_spec cfg d1 d2 :
  index d1 <> index d2 ->
  (add_semantic_markers cfg = true ->
   generate_semantic_markers cfg d1 "start" <> generate_semantic_markers cfg d2 "start") /\
  (add_chunk_hints cfg = true -> generate_chunk_hint cfg d1 <> generate_chunk_hint cfg d2).
Proof.
  intros Hne. split.
  - intros Hm H. unfold generate_semantic_markers in H. rewrite Hm in H.
    change (String.eqb "start" "start") with true in H. cbv beta iota in H.
    apply app_inv_head in H. injection H as H.
    apply Hne, pad4_inj. exact (digits_prefix _ _ dq _ _ (pad4_digits _) (pad4_digits _) eq_refl H).
  - intros Hc H. unfold generate_chunk_hint in H. rewrite Hc in H. cbv beta iota in H.
    apply app_inv_head in H.
    apply Hne, pad4_inj. exact (digits_prefix _ _ " "%char _ _ (pad4_digits _) (pad4_digits _) eq_refl H).
Qed.

(** Documents with different indices get different ids: their start
    markers differ when semantic markers are on, and their chunk hints
    differ when chunk hints are on (["doc_0001"], ..., ["doc_9999"],
    ["doc_10000"], ...). *)
Theorem document_ids_distinct (cfg : MergeConfig) (d1 d2 : ProcessedDocument) :
  index d1 <> index d2 ->
  (add_semantic_markers cfg = true ->
   generate_semantic_markers cfg d1 "start" <> generate_semantic_markers cfg d2 "start") /\
  (add_chunk_hints cfg = true -> generate_chunk_hint cfg d1 <> generate_chunk_hint cfg d2).
Proof. apply document_ids_spec. Qed.

(** [document_ids_distinct] on the first two documents of a merge. *)
Lemma document_ids_distinct_witness :
  generate_semantic_markers default_config (ex_doc (ex_file "a.md" 10 100) 1 2) "start" <>
  generate_semantic_markers default_config (ex_doc (ex_file "a.md" 10 100) 2 2) "start".
Proof.
  apply (document_ids_distinct default_config (ex_doc (ex_file "a.md" 10 100) 1 2)
           (ex_doc (ex_file "a.md" 10 100) 2 2)); [unfold ex_doc; simpl; lia|reflexivity].
Defined.

(** ** [TOCGenerator.generate] *)

Lemma no_nl_incl a b : (forall c, In c a -> In c b) -> no_nl b -> no_nl a.
Proof.
  unfold no_nl. rewrite !forallb_forall. intros Hi Hb c Hc. apply Hb, Hi, Hc.
Qed.

Lemma no_nl_path_stem p : no_nl (t (path_name p)) -> no_nl (path_stem p).
Proof.
  unfold path_stem. cbv zeta.
  destruct (span (fun c => negb (Ascii.eqb c "."%char)) (rev (t (path_name p)))) as [ext before] eqn:E.
  apply span_spec in E as (E & _).
  destruct before as [|a b]; [exact (fun H => H)|].
  destruct (_ && _); [|exact (fun H => H)].
  apply no_nl_incl. intros c Hc. apply in_rev in Hc.
  rewrite <- (rev_involutive (t (path_name p))), E. rewrite <- in_rev.
  apply in_or_app. right. right. exact Hc.
Qed.

Lemma no_nl_anchor x : no_nl (generate_anchor x).
Proof.
  unfold no_nl. apply forallb_forall. intros c Hc.
  pose proof (proj1 (forallb_forall _ _) (generate_anchor_chars x) c Hc) as H.
  apply anchor_char_not_space, not_nl_of_not_space in H. rewrite H. reflexivity.
Qed.

Lemma digit_not_nl c : is_digit c = true -> is_nl c = false.
Proof. ascii_cases c. Qed.

Lemma no_nl_show_nat n : no_nl (show_nat n).
Proof.
  unfold no_nl. apply forallb_forall. intros c Hc.
  pose proof (proj1 (forallb_forall _ _) (show_nat_go_digits (S n) n) c Hc) as H.
  rewrite (digit_not_nl c H). reflexivity.
Qed.

Lemma no_nl_indent k : no_nl (concat (repeat (t "  ") k)).
Proof. induction k as [|k IH]; [reflexivity|]. cbn [repeat concat]. apply no_nl_app. split; [reflexivity|exact IH]. Qed.

Ltac no_nl_parts :=
  repeat match goal with
         | |- no_nl (_ ++ _) => apply no_nl_app; split
         end;
  first [reflexivity | assumption | apply no_nl_anchor | apply no_nl_show_nat | apply no_nl_indent
        | apply no_nl_path_stem; assumption].

Lemma length_flat_map_filter {A B} (g : A -> list B) (p : A -> bool) l :
  (forall x, length (g x) = if p x then 1 else 0) -> length (flat_map g l) = length (filter p l).
Proof.
  intros H. induction l as [|x l IH]; [reflexivity|]. cbn [flat_map filter].
  rewrite length_app, IH, H. destruct (p x); reflexivity.
Qed.

Lemma toc_doc_lines_spec cfg d :
  no_nl (t (path_name (source_path d))) -> Forall (fun '(_, h) => no_nl h) (headers d) ->
  Forall no_nl (toc_doc_lines cfg d) /\
  length (toc_doc_lines cfg d) =
  1 + (if (toc_depth cfg >? 1)%Z
       then length (filter (fun '(level, _) => (Z.of_nat level <=? toc_depth cfg)%Z) (headers d))
       else 0).
Proof.
  intros Hn Hh. unfold toc_doc_lines. cbv zeta. split.
  - constructor.
    + destruct (String.eqb (toc_style cfg) "links"); [|destruct (String.eqb (toc_style cfg) "numbered")];
        no_nl_parts.
    + destruct (toc_depth cfg >? 1)%Z; [|constructor].
      induction Hh as [|[level h] hs Hx Hs IH]; [constructor|]. cbn [flat_map].
      apply Forall_app. split; [|exact IH].
      destruct (Z.of_nat level <=? toc_depth cfg)%Z; [|constructor].
      destruct (String.eqb (toc_style cfg) "links"); repeat constructor; no_nl_parts.
  - cbn [length Nat.add]. f_equal. destruct (toc_depth cfg >? 1)%Z; [|reflexivity].
    apply length_flat_map_filter. intros [level h].
    destruct (Z.of_nat level <=? toc_depth cfg)%Z; [|reflexivity].
    destruct (String.eqb (toc_style cfg) "links"); reflexivity.
Qed.

Lemma toc_generate_lines cfg docs :
  generate_toc cfg = true ->
  (forall d, In d docs ->
     no_nl (t (path_name (source_path d))) /\ Forall (fun '(_, h) => no_nl h) (headers d)) ->
  length (split_nl (toc_generate cfg docs)) =
  5 + length docs +
  (if (toc_depth cfg >? 1)%Z
   then list_sum (map (fun d => length (filter (fun '(level, _) => (Z.of_nat level <=? toc_depth cfg)%Z)
                                          (headers d))) docs)
   else 0).
Proof.
  intros Hg Hd. unfold toc_generate. rewrite Hg. cbn [negb].
  assert (Forall no_nl (flat_map (toc_doc_lines cfg) docs) /\
          length (flat_map (toc_doc_lines cfg) docs) =
          length docs +
          (if (toc_depth cfg >? 1)%Z
           then list_sum (map (fun d => length (filter (fun '(level, _) =>
                                (Z.of_nat level <=? toc_depth cfg)%Z) (headers d))) docs)
           else 0)) as [Hf Hl].
  { induction docs as [|d ds IH]; [split; [constructor|destruct (_ >? _)%Z; reflexivity]|].
    destruct (Hd d (or_introl eq_refl)) as [Hn Hh].
    destruct (toc_doc_lines_spec cfg d Hn Hh) as [Hf1 Hl1].
    destruct IH as [Hf2 Hl2]; [intros d' Hd'; apply Hd; right; exact Hd'|].
    cbn [flat_map]. split; [apply Forall_app; split; assumption|].
    rewrite length_app, Hl1, Hl2. unfold list_sum. cbn [map fold_right length].
    destruct (_ >? _)%Z; lia. }
  rewrite split_join_nl.
  - rewrite !length_app, Hl. cbn [length]. lia.
  - repeat (apply Forall_app; split); repeat constructor; try exact Hf.
  - destruct docs; discriminate.
Qed.

(** When the table of contents is on and no file name or header text
    contains a newline, [TOCGenerator.generate] produces five framing lines
    (title, blank line, and blank line, [---], blank line at the end), one
    line per document, and, when [toc_depth] is more than 1, one line per
    header of level at most [toc_depth]. *)
Theorem toc_generate_line_count (cfg : MergeConfig) (documents : list ProcessedDocument) :
  generate_toc cfg = true ->
  (forall d, In d documents ->
     no_nl (t (path_name (source_path d))) /\ Forall (fun '(_, h) => no_nl h) (headers d)) ->
  length (split_nl (toc_generate cfg documents)) =
  5 + length documents +
  (if (toc_depth cfg >? 1)%Z
   then list_sum (map (fun d => length (filter (fun '(level, _) => (Z.of_nat level <=? toc_depth cfg)%Z)
                                          (headers d))) documents)
   else 0).
Proof. apply toc_generate_lines. Qed.

(** [toc_generate_line_count] on one document with headers of levels 1, 2
    and 3 under the default depth 2. *)
Lemma toc_generate_line_count_witness :
  length (split_nl (toc_generate default_config
    [mkDoc ["a.md"]%string [] [] [(1, t "A"); (2, t "B"); (3, t "C")] [] None 0 0 1 1])) = 8.
Proof.
  rewrite (toc_generate_line_count default_config _ eq_refl).
  - reflexivity.
  - intros d [<-|[]]. split; [reflexivity|]. repeat constructor.
Defined.

(** ** [matches_patterns] and [fnmatch] *)

Lemma glob_star_nil ts : glob_match (GStar :: ts) [] = glob_match ts [] || false.
Proof. reflexivity. Qed.

Lemma glob_star_cons ts c s :
  glob_match (GStar :: ts) (c :: s) = glob_match ts (c :: s) || glob_match (GStar :: ts) s.
Proof. reflexivity. Qed.

Lemma glob_match_star ts s :
  glob_match (GStar :: ts) s = true <-> exists p r, s = p ++ r /\ glob_match ts r = true.
Proof.
  induction s as [|c s IH].
  - rewrite glob_star_nil, orb_false_r. split.
    + intros H. exists [], []. auto.
    + intros (p & r & E & H). destruct p, r; try discriminate. exact H.
  - rewrite glob_star_cons, orb_true_iff, IH. split.
    + intros [H|(p & r & -> & H)]; [exists [], (c :: s); auto|exists (c :: p), r; auto].
    + intros (p & r & E & H). destruct p as [|d p].
      * left. cbn in E. subst r. exact H.
      * right. injection E as -> ->. exists p, r. auto.
Qed.

Lemma glob_match_lits l s : glob_match (map GLit l) s = true <-> s = l.
Proof.
  revert s; induction l as [|c l IH]; intros [|d s]; cbn [map glob_match];
    try (split; congruence).
  rewrite andb_true_iff, Ascii.eqb_eq, IH. split; [intros [-> ->]; reflexivity|].
  intros E; injection E; auto.
Qed.

Lemma glob_compile_lit fuel c p :
  glob_special c = false -> glob_compile (S fuel) (c :: p) = GLit c :: glob_compile fuel p.
Proof. revert fuel p. ascii_cases c. Qed.

Lemma glob_compile_lits l : forall fuel, length l <= fuel ->
  forallb (fun c => negb (glob_special c)) l = true -> glob_compile fuel l = map GLit l.
Proof.
  induction l as [|c l IH]; intros [|fuel] Hl Hs; cbn in Hl; try lia; try reflexivity.
  apply andb_true_iff in Hs as [Hc Hs]. apply negb_true_iff in Hc.
  rewrite glob_compile_lit by exact Hc. cbn [map]. rewrite IH by (lia || exact Hs). reflexivity.
Qed.

Lemma lower_c_special c : glob_special (lower_c c) = glob_special c.
Proof. ascii_cases c. Qed.

Lemma fnmatch_star_suffix name s :
  forallb (fun c => negb (glob_special c)) s = true ->
  fnmatch name ("*"%char :: s) = true <-> exists pre, name = pre ++ s.
Proof.
  intros Hs. unfold fnmatch. cbn [length glob_compile].
  rewrite glob_compile_lits by (lia || exact Hs). rewrite glob_match_star. split.
  - intros (p & r & E & H). apply glob_match_lits in H. subst r. exists p. exact E.
  - intros (p & E). exists p, s. split; [exact E|]. apply glob_match_lits. reflexivity.
Qed.

Lemma lower_no_special s :
  forallb (fun c => negb (glob_special c)) s = true ->
  forallb (fun c => negb (glob_special c)) (lower s) = true.
Proof.
  unfold lower. rewrite !forallb_forall. intros H c Hc. apply in_map_iff in Hc as (c0 & <- & Hc0).
  rewrite lower_c_special. apply H, Hc0.
Qed.

Lemma matches_patterns_suffix fn s :
  forallb (fun c => negb (glob_special c)) (t s) = true ->
  matches_patterns fn [String "*"%char s] = true <-> exists pre, lower fn = pre ++ lower (t s).
Proof.
  intros Hs. unfold matches_patterns. cbn [existsb]. rewrite orb_false_r.
  change (lower (t (String "*"%char s))) with ("*"%char :: lower (t s)).
  apply fnmatch_star_suffix, lower_no_special, Hs.
Qed.

(** A pattern made of [*] followed by plain characters (no [*], [?] or
    [[]) matches exactly the file names that end with those characters,
    ignoring the case of ASCII letters on both sides ([README.MD] matches
    [*.md]). *)
Theorem matches_patterns_star_suffix (filename : text) (suffix : string) :
  forallb (fun c => negb (glob_special c)) (t suffix) = true ->
  matches_patterns filename [String "*"%char suffix] = true <->
  exists pre, lower filename = pre ++ lower (t suffix).
Proof. apply matches_patterns_suffix. Qed.

(** [matches_patterns_star_suffix]: [README.MD] matches [*.md]. *)
Lemma matches_patterns_star_suffix_witness :
  matches_patterns (t "README.MD") [String "*"%char ".md"] = true.
Proof.
  apply (matches_patterns_star_suffix (t "README.MD") ".md" eq_refl).
  exists (t "readme"). reflexivity.
Defined.

(** With the default configuration, a file is picked exactly when its name
    ends with [.md] or [.markdown], in any letter case. *)
Theorem default_filters_markdown (p : path) :
  matches_filters default_analyzer_config p = true <->
  (exists pre, lower (t (path_name p)) = pre ++ t ".md") \/
  (exists pre, lower (t (path_name p)) = pre ++ t ".markdown").
Proof.
  unfold matches_filters. cbn [include_patterns exclude_patterns default_analyzer_config].
  rewrite <- (matches_patterns_suffix (t (path_name p)) ".md" eq_refl).
  rewrite <- (matches_patterns_suffix (t (path_name p)) ".markdown" eq_refl).
  unfold matches_patterns. cbn [existsb]. rewrite !orb_false_r.
  destruct (fnmatch (lower (t (path_name p))) (lower (t "*.md")));
    destruct (fnmatch (lower (t (path_name p))) (lower (t "*.markdown"))); cbn; intuition congruence.
Qed.

(** ** [natural_sort_key] *)

Lemma span_first_digit c r : is_digit c = true ->
  exists d' r', span is_digit (c :: r) = (c :: d', r').
Proof.
  intros Hc. cbn [span]. rewrite Hc. destruct (span is_digit r) as [d' r']. eauto.
Qed.

Lemma digit_split_spec fuel : forall s, length s < fuel ->
  concat (digit_split fuel s) = s /\ seg_shape (digit_split fuel s) = true.
Proof.
  induction fuel as [|fuel IH]; intros s Hl; [lia|]. cbn [digit_split].
  destruct (span (fun c => negb (is_digit c)) s) as [a r] eqn:E.
  apply span_spec in E as (-> & Ha & Hr).
  destruct Hr as [->|(c & r'' & -> & Hc)].
  - cbn. rewrite !app_nil_r, Ha. auto.
  - apply negb_false_iff in Hc.
    destruct (span_first_digit c r'' Hc) as (d' & r' & E2). rewrite E2.
    pose proof (span_spec _ _ _ _ E2) as (E3 & Hd & _).
    rewrite length_app, E3, length_app in Hl. cbn [length] in Hl.
    destruct (IH r' ltac:(lia)) as [H1 H2].
    split.
    + cbn [concat]. rewrite H1, E3. reflexivity.
    + destruct (digit_split fuel r') as [|x l'] eqn:E4; [discriminate|].
      cbn [seg_shape]. rewrite Ha. cbn [is_digit_text]. rewrite Hd. exact H2.
Qed.

Lemma not_digit_text a : forallb (fun c => negb (is_digit c)) a = true -> is_digit_text a = false.
Proof.
  destruct a as [|c a]; [reflexivity|]. cbn. intros H. apply andb_true_iff in H as [H _].
  apply negb_true_iff in H. rewrite H. reflexivity.
Qed.

Lemma seg_shape_alternating l :
  seg_shape l = true ->
  alternating (map (fun seg => if is_digit_text seg then inl (digits_value seg) else inr (lower seg)) l)
  = true.
Proof.
  revert l. fix IH 1. intros [|a [|d l']] H; cbn [seg_shape] in H; [discriminate| |].
  - cbn [map]. rewrite not_digit_text by exact H. reflexivity.
  - apply andb_true_iff in H as [H H3]. apply andb_true_iff in H as [H1 H2].
    cbn [map]. rewrite not_digit_text by exact H1. rewrite H2. cbn [alternating].
    apply IH, H3.
Qed.

(** The pieces [re.split(r'(\d+)', s)] cuts a name into put back together
    give the name, and the natural sort key alternates [str] and [int]
    parts, starting and ending with a [str] part: comparing two keys never
    compares an [int] with a [str], so sorting by it never raises. *)
Theorem natural_sort_key_alternates (s : text) :
  concat (digit_split (S (length s)) s) = s /\ alternating (natural_sort_key s) = true.
Proof.
  destruct (digit_split_spec (S (length s)) s ltac:(lia)) as [H1 H2].
  split; [exact H1|]. unfold natural_sort_key. apply seg_shape_alternating, H2.
Qed.

(** ** [MergeEngine._write_output] *)

Lemma in_order_app_l a xs s : in_order xs s -> in_order xs (a ++ s).
Proof.
  destruct xs as [|x xs]; [auto|]. intros (a0 & b & -> & H). exists (a ++ a0), b.
  rewrite <- app_assoc. auto.
Qed.

Lemma in_order_app_r xs : forall s b, in_order xs s -> in_order xs (s ++ b).
Proof.
  induction xs as [|x xs IH]; [auto|]. intros s b (a0 & b0 & -> & H).
  exists a0, (b0 ++ b). rewrite <- !app_assoc. split; [reflexivity|apply IH, H].
Qed.

Lemma document_block_shape lib cfg n i d :
  exists a b, document_block lib cfg n i d = a ++ processed_content d ++ b.
Proof.
  unfold document_block. cbv zeta.
  match goal with
  | |- exists a b, ?m1 ++ ?m2 ++ ?m3 ++ ?h ++ [nl; nl] ++ processed_content d ++ ?e ++ ?sep = _ =>
      exists (m1 ++ m2 ++ m3 ++ h ++ [nl; nl]), (e ++ sep)
  end.
  rewrite <- !app_assoc. reflexivity.
Qed.

Lemma document_blocks_in_order lib cfg n docs : forall i,
  in_order (map processed_content docs) (document_blocks lib cfg n i docs).
Proof.
  induction docs as [|d ds IH]; intros i; [exact I|]. cbn [map document_blocks in_order].
  destruct (document_block_shape lib cfg n i d) as (a & b & ->).
  exists a, (b ++ document_blocks lib cfg n (S i) ds). rewrite <- !app_assoc.
  split; [reflexivity|]. apply in_order_app_l, IH.
Qed.

Lemma merge_written_in_order lib cfg env files :
  (forall j, env_cancelled env j = false) -> (forall j, env_callback env j = None) ->
  exists txt, merge_written_text lib cfg env files false = Some txt /\
    in_order (map processed_content (ok_docs env (length files) files 1)) txt.
Proof.
  intros Hc Hcb. unfold merge_written_text.
  destruct (phase1_bytes env (length files) files Hc Hcb 1 [] [] 0) as (errs' & ->).
  eexists. split; [reflexivity|]. unfold write_output_text.
  apply in_order_app_l, in_order_app_r, document_blocks_in_order.
Qed.

(** When no cancellation is observed and no progress callback raises, a
    run that is not a dry run hands [_write_output] a text that contains
    the processed content of every file that could be processed, unchanged
    and in the order of the files. *)
Theorem merge_writes_contents_in_order (lib : PyLib) (cfg : MergeConfig) (env : MergeEnv)
  (files : list FileInfo) :
  (forall j, env_cancelled env j = false) -> (forall j, env_callback env j = None) ->
  exists txt, merge_written_text lib cfg env files false = Some txt /\
    in_order (map processed_content (ok_docs env (length files) files 1)) txt.
Proof. apply merge_written_in_order. Qed.

(** [merge_writes_contents_in_order] on two files. *)
Lemma merge_writes_contents_in_order_witness :
  exists txt, merge_written_text ex_lib default_config ex_env_ok ex_files false = Some txt /\
    in_order (map processed_content (ok_docs ex_env_ok 2 ex_files 1)) txt.
Proof.
  exact (merge_writes_contents_in_order ex_lib default_config ex_env_ok ex_files
           (fun _ => eq_refl) (fun _ => eq_refl)).
Defined.

(** ** [MainWindow.remove_selected] *)

Lemma opt_string_eqb_eq a b : opt_string_eqb a b = true <-> a = b.
Proof.
  destruct a, b; cbn; try (split; congruence). rewrite String.eqb_eq. split; congruence.
Qed.

Lemma fileinfo_eqb_eq a b : fileinfo_eqb a b = true <-> a = b.
Proof.
  destruct a as [p1 s1 m1 h1 v1], b as [p2 s2 m2 h2 v2]. unfold fileinfo_eqb. cbn.
  rewrite !andb_true_iff, path_eqb_eq, Nat.eqb_eq, Z.eqb_eq, opt_string_eqb_eq, text_eqb_eq.
  split; [intros [[[[-> ->] ->] ->] ->]; reflexivity|]. intros E; injection E; tauto.
Qed.

Lemma list_remove_perm x l : In x l -> Permutation l (x :: list_remove x l).
Proof.
  induction l as [|y l IH]; [intros []|]. intros Hin. cbn [list_remove].
  destruct (fileinfo_eqb x y) eqn:E.
  - apply fileinfo_eqb_eq in E. subst y. reflexivity.
  - destruct Hin as [->|Hin].
    + assert (fileinfo_eqb x x = true) by (apply fileinfo_eqb_eq; reflexivity). congruence.
    + rewrite (IH Hin) at 1. apply perm_swap.
Qed.

Lemma remove_selected_perm selected : forall files rest,
  Permutation files (selected ++ rest) -> Permutation (remove_selected files selected) rest.
Proof.
  unfold remove_selected.
  induction selected as [|x sel IH]; intros files rest Hp; [exact Hp|]. cbn [fold_left].
  assert (In x files) as Hin by (apply (Permutation_in _ (Permutation_sym Hp)); left; reflexivity).
  assert (existsb (fileinfo_eqb x) files = true) as E
    by (apply existsb_exists; exists x; split; [exact Hin|apply fileinfo_eqb_eq; reflexivity]).
  rewrite E. apply IH. apply (Permutation_cons_inv (a := x)).
  rewrite <- (list_remove_perm x files Hin). exact Hp.
Qed.

(** When the selected entries are entries of the file list (each taken at
    most as many times as it occurs), [remove_selected] removes exactly
    them: what is left is the rest of the list, as a multiset. *)
Theorem remove_selected_exact (files selected rest : list FileInfo) :
  Permutation files (selected ++ rest) -> Permutation (remove_selected files selected) rest.
Proof. apply remove_selected_perm. Qed.

(** [remove_selected_exact]: removing [b.md] from [a.md] and [b.md]. *)
Lemma remove_selected_exact_witness :
  Permutation (remove_selected ex_files [ex_file "b.md" 20 200]) [ex_file "a.md" 10 100].
Proof.
  apply remove_selected_exact. unfold ex_files. cbn [app]. apply perm_swap.
Defined.
